(** * Training metrics of flax.nnx: Average, Welford, Accuracy, MultiMetric

    A shallow embedding of [flax/nnx/nnx/training/metrics.py].

    The accumulators keep their state in [MetricState] cells holding
    zero-dimensional [jnp] arrays: [float32] for sums, means and squared
    deviations, [int32] (or [uint32], after [Welford.reset]) for counts.
    What the array library contributes -- the arithmetic of the float
    cells, the reductions [sum], [mean] and [var] of an array, and the
    conversion of a Python [int] that meets an array -- is kept behind the
    interface [Arith].  The methods are written once, over any [Arith];
    statements made for every [Arith] hold whatever the library rounds,
    reorders, fuses or flushes.  Two instances are given: IEEE binary32
    ([SpecFloat] with 24 bits of precision) with its reductions taken in
    index order, and the real numbers (the same formulas without rounding
    and without overflow).  Integer cells wrap around at 32 bits. *)

From Stdlib Require Import ZArith List Bool Reals Lra Lia.
From Stdlib Require Import Floats.SpecFloat.
From stdpp Require Import base option list gmap strings.

Local Open Scope Z_scope.

(** ** Python exceptions and results *)

Inductive exn : Type :=
| TypeError        (* a keyword argument is missing; a value is not
                      callable or not iterable; shapes do not broadcast *)
| ValueError       (* shape or dtype contract violated *)
| AttributeError   (* attribute missing on the value received *)
| OverflowError    (* a Python int does not fit the integer type *)
| NotImplementedError.

Inductive result (A : Type) : Type :=
| Ok (a : A)
| Raise (e : exn).
Arguments Ok {A} a.
Arguments Raise {A} e.

(** ** Integer cells: 0-d [int32] / [uint32] arrays *)

Inductive int_dtype : Type := int32 | uint32.

Definition wrap (d : int_dtype) (z : Z) : Z :=
  match d with
  | int32 => (z + 2147483648) mod 4294967296 - 2147483648
  | uint32 => z mod 4294967296
  end.

Definition in_range (d : int_dtype) (z : Z) : Prop :=
  match d with
  | int32 => -2147483648 <= z <= 2147483647
  | uint32 => 0 <= z <= 4294967295
  end.

Record int_cell : Type := IntCell { cell_dtype : int_dtype; cell_val : Z }.

(** The sum of an integer cell and an integer: it keeps the dtype of the
    cell and wraps around. *)
Definition int_add (c : int_cell) (n : Z) : int_cell :=
  IntCell (cell_dtype c) (wrap (cell_dtype c) (cell_val c + n)).

(** The range of the default integer type, [int32]. *)
Definition fits_int32 (z : Z) : bool :=
  (-2147483648 <=? z) && (z <=? 2147483647).

(** ** What the array library provides *)

Class Arith (F : Type) : Type := {
  f_zero : F;                 (* jnp.array(0, dtype=jnp.float32), and 0.0 *)
  f_of_int : Z -> F;          (* an integer operand promoted to float32 *)
  f_add : F -> F -> F;
  f_sub : F -> F -> F;
  f_mul : F -> F -> F;
  f_div : F -> F -> F;
  f_pow_half : F -> F;        (* x ** 0.5 *)
  f_ltb : F -> F -> bool;     (* x < y *)
  f_isnan : F -> bool;        (* x != x *)
  a_sum : list F -> F;        (* x.sum() of a float32 array *)
  a_mean : list F -> F;       (* x.mean(), the elements taken as float32 *)
  a_var : list F -> F;        (* x.var(), population variance *)
  (* A Python int that meets an array is first converted to the default
     integer type; [py_int_ok z] tells whether [z] is accepted.  Whatever
     fits int32 is. *)
  py_int_ok : Z -> bool;
  py_int_ok_int32 : forall z, fits_int32 z = true -> py_int_ok z = true
}.

(** A Python int as an operand: itself, or [OverflowError]. *)
Definition py_int {F} `{Arith F} (z : Z) : result Z :=
  if py_int_ok z then Ok z else Raise OverflowError.

(** [cell += n] for a Python int [n]. *)
Definition int_iadd {F} `{Arith F} (c : int_cell) (n : Z) : result int_cell :=
  match py_int n with
  | Ok n => Ok (int_add c n)
  | Raise e => Raise e
  end.

(** A Python int as an operand of a float32 operation. *)
Definition float_of_py_int {F} `{Arith F} (z : Z) : result F :=
  match py_int z with
  | Ok z => Ok (f_of_int z)
  | Raise e => Raise e
  end.

(** *** Reductions in index order

    The elements are added first to last, starting from zero; the variance
    is the mean of the squared deviations from the mean; every operation
    is rounded on its own. *)

Section InOrder.
Context {F : Type} (zero : F) (of_int : Z -> F) (add sub mul div : F -> F -> F).

Definition sum_in_order (l : list F) : F := fold_left add l zero.

Definition mean_in_order (l : list F) : F :=
  div (sum_in_order l) (of_int (Z.of_nat (length l))).

Definition var_in_order (l : list F) : F :=
  let m := mean_in_order l in
  let centered := map (fun x => sub x m) l in
  div (sum_in_order (map (fun c => mul c c) centered))
      (of_int (Z.of_nat (length l))).
End InOrder.

(** *** IEEE binary32 *)

Module B32.
Definition prec : Z := 24.
Definition emax : Z := 128.

Definition of_int (z : Z) : spec_float := binary_normalize prec emax z 0 false.

Definition nan : spec_float := S754_nan.
Definition pzero : spec_float := S754_zero false.
Definition nzero : spec_float := S754_zero true.

(** [pow(x, 0.5)]: the square root, except at [-0.0] and [-inf]. *)
Definition pow_half (x : spec_float) : spec_float :=
  match x with
  | S754_zero true => S754_zero false
  | S754_infinity true => S754_infinity false
  | _ => SFsqrt prec emax x
  end.

Definition isnan (x : spec_float) : bool :=
  match x with S754_nan => true | _ => false end.

(** [m * 2^e], rounded to nearest even. *)
Definition make (m e : Z) : spec_float := binary_normalize prec emax m e false.

Definition add : spec_float -> spec_float -> spec_float := SFadd prec emax.
Definition sub : spec_float -> spec_float -> spec_float := SFsub prec emax.
Definition mul : spec_float -> spec_float -> spec_float := SFmul prec emax.
Definition div : spec_float -> spec_float -> spec_float := SFdiv prec emax.
End B32.

(** Binary32 as IEEE 754 defines it (round to nearest even, gradual
    underflow), the reductions in index order, a Python int accepted when
    it fits int32.  It is the reference for what is said below of NaN,
    signs, zero counts, overflow and absorption in float32; what is to
    hold of any implementation of the library, which may reorder or fuse
    the operations of a reduction or flush subnormal numbers to zero, is
    stated for every [Arith]. *)
#[export] Instance arith_b32 : Arith spec_float := {|
  f_zero := B32.pzero;
  f_of_int := B32.of_int;
  f_add := SFadd B32.prec B32.emax;
  f_sub := SFsub B32.prec B32.emax;
  f_mul := SFmul B32.prec B32.emax;
  f_div := SFdiv B32.prec B32.emax;
  f_pow_half := B32.pow_half;
  f_ltb := SFltb;
  f_isnan := B32.isnan;
  a_sum := sum_in_order B32.pzero B32.add;
  a_mean := mean_in_order B32.pzero B32.of_int B32.add B32.div;
  a_var := var_in_order B32.pzero B32.of_int B32.add B32.sub B32.mul B32.div;
  py_int_ok := fits_int32;
  py_int_ok_int32 := fun z Hz => Hz
|}.

(** *** Exact real arithmetic *)

Definition Rltb (x y : R) : bool := if Rlt_dec x y then true else false.

(** The real numbers: nothing is rounded, nothing overflows, and every
    Python int is the number it denotes. *)
#[export] Instance arith_R : Arith R := {|
  f_zero := 0%R;
  f_of_int := IZR;
  f_add := Rplus;
  f_sub := Rminus;
  f_mul := Rmult;
  f_div := Rdiv;
  f_pow_half := sqrt;
  f_ltb := Rltb;
  f_isnan := fun _ => false;
  a_sum := sum_in_order 0%R Rplus;
  a_mean := mean_in_order 0%R IZR Rplus Rdiv;
  a_var := var_in_order 0%R IZR Rplus Rminus Rmult Rdiv;
  py_int_ok := fun _ => true;
  py_int_ok_int32 := fun z _ => eq_refl
|}.

(** ** Arrays and Python values *)

Section Values.
Context {F : Type} `{Arith F}.

(** The flattened (row-major) elements of a [jax.Array], by dtype. *)
Inductive adata : Type :=
| DBool (l : list bool)       (* dtype bool *)
| DInt (l : list Z)           (* dtype int32 *)
| DFloat (l : list F).        (* dtype float32 *)

Record jarray : Type := JArray { shape : list nat; adat : adata }.

Definition alength (d : adata) : nat :=
  match d with
  | DBool l => length l
  | DInt l => length l
  | DFloat l => length l
  end.

(** [a.ndim] and [a.size] *)
Definition ndim (a : jarray) : nat := length (shape a).
Definition asize (a : jarray) : Z := Z.of_nat (alength (adat a)).

(** A well-formed array has as many elements as its shape says. *)
Definition wf_array (a : jarray) : Prop :=
  alength (adat a) = fold_right Nat.mul 1%nat (shape a).

(** The elements converted to float32, as [mean] and [var] do first. *)
Definition as_floats (d : adata) : list F :=
  match d with
  | DBool l => map (fun b : bool => f_of_int (Z.b2z b)) l
  | DInt l => map f_of_int l
  | DFloat l => l
  end.

(** [a.sum()] as it enters a float32 addition: a bool or int32 array
    sums to an int32, which the addition promotes to float32. *)
Definition asum (a : jarray) : F :=
  match adat a with
  | DBool l => f_of_int (wrap int32 (fold_left Z.add (map Z.b2z l) 0))
  | DInt l => f_of_int (wrap int32 (fold_left Z.add l 0))
  | DFloat l => a_sum l
  end.

(** [a.mean()] *)
Definition amean (a : jarray) : F := a_mean (as_floats (adat a)).

(** [a.var()]: population variance ([ddof = 0]). *)
Definition avar (a : jarray) : F := a_var (as_floats (adat a)).

(** What a keyword argument can hold: [tp.Union[int, float, jax.Array]].
    A Python [float] is carried as the float32 it is converted to when
    it meets a float32 cell. *)
Inductive pyvalue : Type :=
| PyInt (z : Z)
| PyFloat (x : F)
| PyArr (a : jarray).
End Values.

Arguments adata F : clear implicits.
Arguments jarray F : clear implicits.
Arguments pyvalue F : clear implicits.

(** Keyword arguments: a [dict] from names to values. *)
Abbreviation kwargs F := (gmap string (pyvalue F)).

(** A method call on an object in state [S]: what it returns or raises,
    and the state it leaves the object in. *)
Definition outcome (S A : Type) : Type := (result A * S)%type.

(** ** Average *)

Module Average.
Section Def.
Context {F : Type} `{Arith F}.

Record t : Type := Make {
  argname : string;
  total : F;               (* MetricState, float32 *)
  count : int_cell         (* MetricState, int32 *)
}.

Definition init (argname : string) : t :=
  {| argname := argname; total := f_zero; count := IntCell int32 0 |}.

Definition reset (self : t) : outcome t unit :=
  (Ok tt,
   {| argname := argname self; total := f_zero; count := IntCell int32 0 |}).

(** [values if isinstance(values, (int, float)) else values.sum()], as
    the operand of [+=]. *)
Definition addend (values : pyvalue F) : result F :=
  match values with
  | PyInt z => float_of_py_int z
  | PyFloat x => Ok x
  | PyArr a => Ok (asum a)
  end.

(** [1 if isinstance(values, (int, float)) else values.size] *)
Definition increment (values : pyvalue F) : Z :=
  match values with
  | PyInt _ | PyFloat _ => 1
  | PyArr a => asize a
  end.

Definition update (self : t) (kw : kwargs F) : outcome t unit :=
  match kw !! argname self with
  | None => (Raise TypeError, self)
  | Some values =>
      (* self.total.value += ... *)
      match addend values with
      | Raise e => (Raise e, self)
      | Ok x =>
          let self1 :=
            {| argname := argname self; total := f_add (total self) x;
               count := count self |} in
          (* self.count.value += ... *)
          match int_iadd (count self1) (increment values) with
          | Raise e => (Raise e, self1)
          | Ok count' =>
              (Ok tt,
               {| argname := argname self1; total := total self1;
                  count := count' |})
          end
      end
  end.

Definition compute (self : t) : outcome t F :=
  (Ok (f_div (total self) (f_of_int (cell_val (count self)))), self).
End Def.
Arguments t F : clear implicits.
End Average.

(** ** Welford *)

Record Statistics (F : Type) : Type := MkStatistics {
  stat_mean : F;
  standard_error_of_mean : F;
  standard_deviation : F
}.
Arguments MkStatistics {F}.
Arguments stat_mean {F}.
Arguments standard_error_of_mean {F}.
Arguments standard_deviation {F}.

Module Welford.
Section Def.
Context {F : Type} `{Arith F}.

Record t : Type := Make {
  argname : string;
  count : int_cell;        (* MetricState, int32; uint32 after reset *)
  mean : F;                (* MetricState, float32 *)
  m2 : F                   (* MetricState, float32 *)
}.

Definition init (argname : string) : t :=
  {| argname := argname; count := IntCell int32 0;
     mean := f_zero; m2 := f_zero |}.

Definition reset (self : t) : outcome t unit :=
  (Ok tt,
   {| argname := argname self; count := IntCell uint32 0;
      mean := f_zero; m2 := f_zero |}).

(** The number of observations, their mean and their summed squared
    deviations, as [update] reads them off [values]. *)
Definition batch_count (values : pyvalue F) : Z :=
  match values with
  | PyInt _ | PyFloat _ => 1
  | PyArr a => asize a
  end.

(** [values if isinstance(values, (int, float)) else values.mean()], as
    the operand of [-]. *)
Definition batch_mean (values : pyvalue F) : result F :=
  match values with
  | PyInt z => float_of_py_int z
  | PyFloat x => Ok x
  | PyArr a => Ok (amean a)
  end.

Definition batch_m2 (values : pyvalue F) : F :=
  match values with
  | PyInt _ | PyFloat _ => f_zero
  | PyArr a => f_mul (avar a) (f_of_int (asize a))
  end.

Definition update (self : t) (kw : kwargs F) : outcome t unit :=
  match kw !! argname self with
  | None => (Raise TypeError, self)
  | Some values =>
      let count_ := batch_count values in
      let original_count := count self in
      (* self.count.value += count *)
      match int_iadd (count self) count_ with
      | Raise e => (Raise e, self)
      | Ok count' =>
          let self1 :=
            {| argname := argname self; count := count';
               mean := mean self; m2 := m2 self |} in
          (* delta = (...) - self.mean.value *)
          match batch_mean values with
          | Raise e => (Raise e, self1)
          | Ok batch_mean_ =>
              let delta := f_sub batch_mean_ (mean self1) in
              let mean' :=
                f_add (mean self1)
                  (f_div (f_mul delta (f_of_int count_))
                         (f_of_int (cell_val count'))) in
              let m2_ := batch_m2 values in
              let m2' :=
                f_add (m2 self1)
                  (f_add m2_
                     (f_div
                        (f_mul (f_mul (f_mul delta delta) (f_of_int count_))
                               (f_of_int (cell_val original_count)))
                        (f_of_int (cell_val count')))) in
              (Ok tt,
               {| argname := argname self1; count := count';
                  mean := mean'; m2 := m2' |})
          end
      end
  end.

Definition compute (self : t) : outcome t (Statistics F) :=
  let variance := f_div (m2 self) (f_of_int (cell_val (count self))) in
  let standard_deviation := f_pow_half variance in
  let sem :=
    f_div standard_deviation
          (f_pow_half (f_of_int (cell_val (count self)))) in
  (Ok {| stat_mean := mean self;
         standard_error_of_mean := sem;
         standard_deviation := standard_deviation |},
   self).
End Def.
Arguments t F : clear implicits.
End Welford.

(** ** Array operations used by Accuracy *)

Section ArrayOps.
Context {F : Type} `{Arith F}.

Definition prod_shape (s : list nat) : nat := fold_right Nat.mul 1%nat s.

(** The first [n] rows of [d] elements each. *)
Fixpoint chunks {A} (d n : nat) (l : list A) : list (list A) :=
  match n with
  | O => []
  | S n' => take d l :: chunks d n' (drop d l)
  end.

(** [argmax] keeps the first maximum: the running maximum is replaced
    only by a strictly greater element (or by the first NaN). *)
Definition better_bool (x best : bool) : bool := x && negb best.
Definition better_int (x best : Z) : bool := best <? x.
Definition better_float (x best : F) : bool :=
  negb (f_isnan best) && (f_isnan x || f_ltb best x).

Fixpoint argmax_from {A} (better : A -> A -> bool)
    (best : A) (besti i : nat) (l : list A) : nat :=
  match l with
  | [] => besti
  | x :: l' =>
      if better x best then argmax_from better x i (S i) l'
      else argmax_from better best besti (S i) l'
  end.

Definition argmax_row {A} (better : A -> A -> bool) (row : list A) : Z :=
  match row with
  | [] => 0
  | x :: l => Z.of_nat (argmax_from better x 0 1 l)
  end.

(** [a.argmax(axis=-1)]: an int32 array without the last axis; an empty
    last axis has no maximum. *)
Definition argmax_last (a : jarray F) : result (jarray F) :=
  match last (shape a) with
  | None => Raise ValueError
  | Some O => Raise ValueError
  | Some d =>
      let s := removelast (shape a) in
      let rows := prod_shape s in
      Ok (JArray s
            (DInt match adat a with
                  | DBool l => map (argmax_row better_bool) (chunks d rows l)
                  | DInt l => map (argmax_row better_int) (chunks d rows l)
                  | DFloat l => map (argmax_row better_float) (chunks d rows l)
                  end))
  end.

(** Broadcasting of two shapes, aligned at the last axis. *)
Fixpoint broadcast_dims (s1 s2 : list nat) : option (list nat) :=
  match s1, s2 with
  | [], [] => Some []
  | a :: s1', b :: s2' =>
      match broadcast_dims s1' s2' with
      | None => None
      | Some r =>
          if (a =? b)%nat then Some (a :: r)
          else if (a =? 1)%nat then Some (b :: r)
          else if (b =? 1)%nat then Some (a :: r)
          else None
      end
  | _, _ => None
  end.

Definition pad_shape (n : nat) (s : list nat) : list nat :=
  repeat 1%nat (n - length s) ++ s.

Definition broadcast_shapes (s1 s2 : list nat) : option (list nat) :=
  let n := Nat.max (length s1) (length s2) in
  broadcast_dims (pad_shape n s1) (pad_shape n s2).

(** The elements of an array of shape [from] laid out in shape [to]. *)
Fixpoint broadcast_to {A} (from to : list nat) (l : list A) : list A :=
  match from, to with
  | a :: from', b :: to' =>
      if (a =? b)%nat then
        concat (map (broadcast_to from' to') (chunks (prod_shape from') a l))
      else concat (repeat (broadcast_to from' to' l) b)
  | _, _ => l
  end.

(** [x == y] for two int32 arrays: a bool array of the broadcast shape;
    shapes that do not broadcast are a [TypeError]. *)
Definition int_array_eq (s1 : list nat) (l1 : list Z)
    (s2 : list nat) (l2 : list Z) : result (jarray F) :=
  match broadcast_shapes s1 s2 with
  | None => Raise TypeError
  | Some s =>
      let n := length s in
      Ok (JArray s
            (DBool (zip_with Z.eqb
                      (broadcast_to (pad_shape n s1) s l1)
                      (broadcast_to (pad_shape n s2) s l2))))
  end.

Definition is_int32 (a : jarray F) : bool :=
  match adat a with
  | DInt _ => true
  | _ => false
  end.
End ArrayOps.

(** ** Accuracy *)

Module Accuracy.
Section Def.
Context {F : Type} `{Arith F}.

(** [class Accuracy(Average)]: the state and [__init__], [reset] and
    [compute] are those of [Average]. *)
Definition t : Type := Average.t F.
Definition init : string -> t := Average.init.
Definition reset : t -> outcome t unit := Average.reset.
Definition compute : t -> outcome t F := Average.compute.

(** [predicted == labels], with [predicted] an int32 array. *)
Definition eq_labels (predicted labels : jarray F) : result (jarray F) :=
  match adat predicted, adat labels with
  | DInt lp, DInt ll => int_array_eq (shape predicted) lp (shape labels) ll
  | _, _ => Raise ValueError
  end.

Definition update (self : t) (kw : kwargs F) : outcome t unit :=
  match kw !! "logits"%string, kw !! "labels"%string with
  | Some logits, Some labels =>
      match logits, labels with
      | PyArr logits, PyArr labels =>
          if negb (ndim logits =? ndim labels + 1)%nat
             || negb (is_int32 labels)
          then (Raise ValueError, self)
          else
            match argmax_last logits with
            | Raise e => (Raise e, self)
            | Ok predicted =>
                match eq_labels predicted labels with
                | Raise e => (Raise e, self)
                | Ok hits =>
                    Average.update self {[ "values"%string := PyArr hits ]}
                end
            end
      | _, _ => (Raise AttributeError, self)
      end
  | _, _ => (Raise TypeError, self)
  end.
End Def.
End Accuracy.

(** ** The Metric interface *)

(** [class Metric(Object)]: the methods of the base class itself only
    raise. *)
Module MetricBase.
Definition reset {S} (self : S) : outcome S unit :=
  (Raise NotImplementedError, self).
Definition update {S F} (self : S) (_ : kwargs F) : outcome S unit :=
  (Raise NotImplementedError, self).
Definition compute {S A} (self : S) : outcome S A :=
  (Raise NotImplementedError, self).
End MetricBase.

Class Metric (F M Out : Type) : Type := {
  m_reset : M -> outcome M unit;
  m_update : M -> kwargs F -> outcome M unit;
  m_compute : M -> outcome M Out
}.

(** The concrete accumulators of this module. *)
Inductive metric (F : Type) : Type :=
| MAverage (a : Average.t F)
| MWelford (w : Welford.t F)
| MAccuracy (a : Average.t F).
Arguments MAverage {F} a.
Arguments MWelford {F} w.
Arguments MAccuracy {F} a.

Inductive metric_value (F : Type) : Type :=
| VScalar (x : F)
| VStats (s : Statistics F).
Arguments VScalar {F} x.
Arguments VStats {F} s.

Definition lift {S T A B} (inj : S -> T) (f : A -> B) (o : outcome S A)
  : outcome T B :=
  (match fst o with Ok a => Ok (f a) | Raise e => Raise e end, inj (snd o)).

#[export] Instance metric_Metric {F} `{Arith F}
  : Metric F (metric F) (metric_value F) := {|
  m_reset m :=
    match m with
    | MAverage a => lift MAverage (fun u => u) (Average.reset a)
    | MWelford w => lift MWelford (fun u => u) (Welford.reset w)
    | MAccuracy a => lift MAccuracy (fun u => u) (Accuracy.reset a)
    end;
  m_update m kw :=
    match m with
    | MAverage a => lift MAverage (fun u => u) (Average.update a kw)
    | MWelford w => lift MWelford (fun u => u) (Welford.update w kw)
    | MAccuracy a => lift MAccuracy (fun u => u) (Accuracy.update a kw)
    end;
  m_compute m :=
    match m with
    | MAverage a => lift MAverage VScalar (Average.compute a)
    | MWelford w => lift MWelford VStats (Welford.compute w)
    | MAccuracy a => lift MAccuracy VScalar (Accuracy.compute a)
    end
|}.

(** ** MultiMetric *)

Module MultiMetric.
Section Def.
Context {F M Out : Type} `{Metric F M Out}.

(** The instance attributes of the object, [vars(self)], are one
    dictionary: [__init__] binds [_metric_names] to a list in it and then
    stores every metric in it under the name it was given.  An entry is
    the list or a metric. *)
Inductive attr : Type :=
| ANames (names : list string)
| AMetric (m : M).

Record t : Type := Make { vars : gmap string attr }.

(** One turn of the loop of [__init__]:
    [self._metric_names.append(metric_name)], which needs the attribute to
    be the list still, then [vars(self)[metric_name] = metric]. *)
Definition init_step (self : t) (metric_name : string) (metric : M)
  : outcome t unit :=
  match vars self !! "_metric_names"%string with
  | Some (ANames names) =>
      (Ok tt,
       Make (<[metric_name := AMetric metric]>
               (<["_metric_names"%string := ANames (names ++ [metric_name])]>
                  (vars self))))
  | _ => (Raise AttributeError, self)
  end.

Fixpoint init_loop (metrics : list (string * M)) (self : t) : outcome t unit :=
  match metrics with
  | [] => (Ok tt, self)
  | (metric_name, metric) :: rest =>
      match init_step self metric_name metric with
      | (Ok _, self') => init_loop rest self'
      | (Raise e, self') => (Raise e, self')
      end
  end.

(** [__init__(self, **metrics)] on the keyword dictionary [metrics], in
    the order its entries were passed: what it returns or raises, and the
    object as it leaves it. *)
Definition init_call (metrics : list (string * M)) : outcome t unit :=
  init_loop metrics (Make {[ "_metric_names"%string := ANames [] ]}).

Definition init (metrics : list (string * M)) : t := snd (init_call metrics).

(** [self._metric_names], as the loops iterate over it. *)
Definition metric_names (self : t) : result (list string) :=
  match vars self !! "_metric_names"%string with
  | Some (ANames names) => Ok names
  | Some (AMetric _) => Raise TypeError      (* a metric is not iterable *)
  | None => Raise AttributeError
  end.

(** [getattr(self, metric_name)], as the receiver of a method of a
    metric: the instance attribute of that name, which has the method if
    it is a metric. *)
Definition getattr (self : t) (name : string) : result M :=
  match vars self !! name with
  | Some (AMetric m) => Ok m
  | _ => Raise AttributeError
  end.

(** [for metric_name in names: getattr(self, metric_name).call()].
    The loop stops at the first exception; what was mutated before
    stays mutated. *)
Fixpoint for_each (call : M -> outcome M unit) (names : list string)
    (self : t) : outcome t unit :=
  match names with
  | [] => (Ok tt, self)
  | metric_name :: rest =>
      match getattr self metric_name with
      | Raise e => (Raise e, self)
      | Ok m =>
          let '(r, m') := call m in
          let self' := Make (<[metric_name := AMetric m']> (vars self)) in
          match r with
          | Ok _ => for_each call rest self'
          | Raise e => (Raise e, self')
          end
      end
  end.

(** The dict comprehension of [compute], in insertion order. *)
Fixpoint compute_each (names : list string) (self : t)
    : outcome t (list (string * Out)) :=
  match names with
  | [] => (Ok [], self)
  | metric_name :: rest =>
      match getattr self metric_name with
      | Raise e => (Raise e, self)
      | Ok m =>
          let '(r, m') := m_compute m in
          let self' := Make (<[metric_name := AMetric m']> (vars self)) in
          match r with
          | Raise e => (Raise e, self')
          | Ok v =>
              let '(rs, self'') := compute_each rest self' in
              (match rs with
               | Ok vs => Ok ((metric_name, v) :: vs)
               | Raise e => Raise e
               end, self'')
          end
      end
  end.

(** [self.method(...)]: the instance attributes come before the methods
    of the class, so a metric stored under the name of a method is found
    in its place, and is not callable. *)
Definition bound {A} (method : string) (body : t -> outcome t A) (self : t)
  : outcome t A :=
  match vars self !! method with
  | Some _ => (Raise TypeError, self)
  | None => body self
  end.

(** The loop head [for metric_name in self._metric_names]. *)
Definition over_names {A} (body : list string -> t -> outcome t A) (self : t)
  : outcome t A :=
  match metric_names self with
  | Raise e => (Raise e, self)
  | Ok names => body names self
  end.

Definition reset : t -> outcome t unit :=
  bound "reset" (over_names (for_each m_reset)).

Definition update (self : t) (updates : kwargs F) : outcome t unit :=
  bound "update" (over_names (for_each (fun m => m_update m updates))) self.

Definition compute : t -> outcome t (list (string * Out)) :=
  bound "compute" (over_names compute_each).
End Def.
Arguments attr M : clear implicits.
Arguments t M : clear implicits.
End MultiMetric.

(** [class MultiMetric(Metric)]: a composite is a Metric itself. *)
#[export] Instance multimetric_Metric {F M Out} `{Metric F M Out}
  : Metric F (MultiMetric.t M) (list (string * Out)) := {|
  m_reset := MultiMetric.reset;
  m_update := MultiMetric.update;
  m_compute := MultiMetric.compute
|}.


(** * Statements *)

(** ** Vocabulary *)

Section Vocabulary.
Context {F : Type} `{Arith F}.

(** A value the library accepts where the methods use it: a Python int
    is accepted as an operand, and so is the size of an array. *)
Definition accepted (v : pyvalue F) : Prop :=
  match v with
  | PyInt z => py_int_ok z = true
  | PyFloat _ => True
  | PyArr a => py_int_ok (asize a) = true
  end.

(** The float a value enters the running sum, and the running mean,
    with, when it is accepted. *)
Definition sum_of (v : pyvalue F) : F :=
  match v with
  | PyInt z => f_of_int z
  | PyFloat x => x
  | PyArr a => asum a
  end.

Definition mean_of (v : pyvalue F) : F :=
  match v with
  | PyInt z => f_of_int z
  | PyFloat x => x
  | PyArr a => amean a
  end.

(** The sum of a list in the arithmetic of the cells, first to last. *)
Definition f_sum (l : list F) : F := fold_left f_add l f_zero.

(** Feeding a sequence of keyword dictionaries to an accumulator. *)
Definition feed {S} (update : S -> kwargs F -> outcome S unit)
    (self : S) (kws : list (kwargs F)) : S :=
  fold_left (fun s kw => snd (update s kw)) kws self.
End Vocabulary.

(** Two-pass statistics over the reals. *)
Definition Rsum (l : list R) : R := fold_right Rplus 0%R l.

Definition mean_two_pass (l : list R) : R :=
  (Rsum l / INR (length l))%R.

Definition Rsumsq (l : list R) : R := Rsum (map (fun x => (x * x)%R) l).

Definition variance_two_pass (l : list R) : R :=
  (Rsum (map (fun x => (x - mean_two_pass l) * (x - mean_two_pass l)) l)
   / INR (length l))%R.







(** *** Predicates on binary32 values *)

(** [x] is NaN or carries the sign [s]. *)
Definition sign_is (s : bool) (x : spec_float) : Prop :=
  match x with
  | S754_zero s' | S754_infinity s' | S754_finite s' _ _ => s' = s
  | S754_nan => True
  end.

(** [x >= 0] or [x] is NaN: [x] is not negative. *)
Definition ge0_or_nan (x : spec_float) : bool :=
  B32.isnan x || SFleb B32.pzero x.

(** The exponent of a finite value is not below the least exponent of
    the format. *)
Definition emin32 : Z := -149.

Definition exp_ok (x : spec_float) : Prop :=
  match x with
  | S754_finite _ _ e => emin32 <= e
  | _ => True
  end.

Definition not_zero (x : spec_float) : Prop :=
  match x with
  | S754_zero _ => False
  | _ => True
  end.

(** The float32 values carried by a keyword argument are binary32
    numbers. *)
Definition valid_value (v : pyvalue spec_float) : Prop :=
  match v with
  | PyInt _ => True
  | PyFloat x => valid_binary B32.prec B32.emax x = true
  | PyArr a =>
      match adat a with
      | DFloat l => Forall (fun x => valid_binary B32.prec B32.emax x = true) l
      | _ => True
      end
  end.

(** The states an Average accumulator goes through: constructed, then
    reset or updated any number of times. *)
Inductive average_reachable : Average.t spec_float -> Prop :=
| reach_init (argname : string) :
    average_reachable (Average.init argname)
| reach_reset (self : Average.t spec_float) :
    average_reachable self ->
    average_reachable (snd (Average.reset self))
| reach_update (self : Average.t spec_float) (kw : kwargs spec_float) :
    average_reachable self ->
    (forall v, kw !! Average.argname self = Some v -> valid_value v) ->
    average_reachable (snd (Average.update self kw)).

(** The state predicate of a Welford accumulator in binary32. *)
Definition welford_inv (w : Welford.t spec_float) : Prop :=
  0 <= cell_val (Welford.count w) /\ ge0_or_nan (Welford.m2 w) = true.

(** *** Accuracy *)

(** The class predicted for each of the [batch] rows of [classes] scores:
    the index of the first greatest score of the row. *)
Definition predicted_classes {F} `{Arith F} (classes batch : nat)
    (scores : adata F) : list Z :=
  match scores with
  | DBool l => map (argmax_row better_bool) (chunks classes batch l)
  | DInt l => map (argmax_row better_int) (chunks classes batch l)
  | DFloat l => map (argmax_row better_float) (chunks classes batch l)
  end.

(** The number of rows whose predicted class is their label. *)
Definition matching_rows (predicted labels : list Z) : Z :=
  Z.of_nat (length (List.filter (fun pl : Z * Z => fst pl =? snd pl)
                                (combine predicted labels))).

(** The example of the specification: five rows of two scores. *)
Definition ex_logits : jarray spec_float :=
  JArray [5; 2]%nat (DInt [2; 1;  1; 2;  2; 1;  1; 2;  2; 1]).
Definition ex_labels : jarray spec_float :=
  JArray [5]%nat (DInt [1; 1; 0; 1; 0]).
Definition ex_loss : jarray spec_float :=
  JArray [4]%nat (DInt [1; 2; 3; 4]).
Definition ex_updates : kwargs spec_float :=
  <["logits"%string := PyArr ex_logits]>
    (<["labels"%string := PyArr ex_labels]>
       {[ "values"%string := PyArr ex_loss ]}).
Definition ex_metrics : list (string * metric spec_float) :=
  [("accuracy"%string, MAccuracy (Accuracy.init "values"));
   ("loss"%string, MAverage (Average.init "values"))].

(** *** Sequences of updates *)

(** The observations a value contributes to an accumulator. *)
Definition observations {F} `{Arith F} (v : pyvalue F) : list F :=
  match v with
  | PyInt z => [f_of_int z]
  | PyFloat x => [x]
  | PyArr a => as_floats (adat a)
  end.

(** Each dictionary of [kws] carries the corresponding value of [vs] under
    the keyword [argname]. *)
Definition carries {F} (argname : string)
    (kws : list (kwargs F)) (vs : list (pyvalue F)) : Prop :=
  Forall2 (fun kw v => kw !! argname = Some v) kws vs.

(** A scalar value: a Python [int] or [float]. *)
Definition is_scalar {F} (v : pyvalue F) : Prop :=
  match v with
  | PyInt _ | PyFloat _ => True
  | PyArr _ => False
  end.

(** The int32 sum of a bool or int32 array does not wrap around. *)
Definition sum_fits {F} (v : pyvalue F) : Prop :=
  match v with
  | PyArr a =>
      match adat a with
      | DInt l => in_range int32 (fold_left Z.add l 0)
      | _ => True
      end
  | _ => True
  end.

(** The zeroed states: what [__init__] and [reset] leave. *)
Definition average_zeroed {F} `{Arith F} (self : Average.t F) : Prop :=
  Average.total self = f_zero /\ Average.count self = IntCell int32 0.

Definition welford_zeroed {F} `{Arith F} (self : Welford.t F) : Prop :=
  Welford.mean self = f_zero /\ Welford.m2 self = f_zero
  /\ cell_val (Welford.count self) = 0.

(** *** Further vocabulary *)

(** The number of observations a run of update calls feeds to an
    accumulator listening to [argname]; a call without the keyword feeds
    none. *)
Definition fed_count {F} (argname : string) (kws : list (kwargs F)) : Z :=
  fold_right
    (fun kw n =>
       match kw !! argname with
       | Some v => Welford.batch_count v + n
       | None => n
       end)
    0 kws.

(** A value that carries at least one observation. *)
Definition nonempty_value {F} (v : pyvalue F) : Prop :=
  match v with
  | PyArr a => (1 <= alength (adat a))%nat
  | _ => True
  end.



(** One batch of scores and labels for Accuracy: [batch] rows of
    [classes] scores, one int32 label per row. *)
Record scored_batch (F : Type) : Type := ScoredBatch {
  sb_batch : nat;
  sb_classes : nat;
  sb_scores : adata F;
  sb_labels : list Z
}.
Arguments ScoredBatch {F}.
Arguments sb_batch {F}.
Arguments sb_classes {F}.
Arguments sb_scores {F}.
Arguments sb_labels {F}.

(** The dictionary [kw] carries the batch [b] as [logits] and [labels]. *)
Definition carries_batch {F} (kw : kwargs F) (b : scored_batch F) : Prop :=
  kw !! "logits"%string
  = Some (PyArr (JArray [sb_batch b; sb_classes b] (sb_scores b)))
  /\ kw !! "labels"%string
     = Some (PyArr (JArray [sb_batch b] (DInt (sb_labels b))))
  /\ length (sb_labels b) = sb_batch b
  /\ (1 <= sb_classes b)%nat.

(** The rows of the batch whose predicted class is their label. *)
Definition batch_hits {F} `{Arith F} (b : scored_batch F) : Z :=
  matching_rows
    (predicted_classes (sb_classes b) (sb_batch b) (sb_scores b))
    (sb_labels b).

(** The matching rows and the rows of a run of batches. *)
Definition total_hits {F} `{Arith F} (bs : list (scored_batch F)) : Z :=
  fold_right (fun b n => batch_hits b + n) 0 bs.

Definition total_rows {F} (bs : list (scored_batch F)) : Z :=
  fold_right (fun b n => Z.of_nat (sb_batch b) + n) 0 bs.


(** * Results *)

(** ** Python ints as operands *)

Lemma py_int_accepts {F} `{Arith F} (z : Z) :
  py_int_ok z = true -> py_int z = Ok z.
Proof. unfold py_int. now intros ->. Qed.

Lemma py_int_cases {F} `{Arith F} (z : Z) :
  py_int z = Ok z \/ py_int z = Raise OverflowError.
Proof. unfold py_int. destruct (py_int_ok z); auto. Qed.

Lemma py_int_ok_small {F} `{Arith F} (z : Z) :
  -2147483648 <= z <= 2147483647 -> py_int_ok z = true.
Proof.
  intros Hz. apply py_int_ok_int32. unfold fits_int32.
  apply andb_true_intro. split; apply Z.leb_le; lia.
Qed.

Lemma int_iadd_accepts {F} `{Arith F} (c : int_cell) (n : Z) :
  py_int_ok n = true -> int_iadd c n = Ok (int_add c n).
Proof. intros Hn. unfold int_iadd. now rewrite py_int_accepts. Qed.

Lemma int_iadd_cases {F} `{Arith F} (c : int_cell) (n : Z) :
  int_iadd c n = Ok (int_add c n) \/ int_iadd c n = Raise OverflowError.
Proof. unfold int_iadd. destruct (py_int_cases n) as [-> | ->]; auto. Qed.

Lemma float_of_py_int_cases {F} `{Arith F} (z : Z) :
  float_of_py_int z = Ok (f_of_int z)
  \/ float_of_py_int z = Raise OverflowError.
Proof. unfold float_of_py_int. destruct (py_int_cases z) as [-> | ->]; auto. Qed.

Lemma accepted_count {F} `{Arith F} (v : pyvalue F) :
  accepted v -> py_int_ok (Welford.batch_count v) = true.
Proof. destruct v; simpl; auto; intros _; now apply py_int_ok_small. Qed.

Lemma accepted_addend {F} `{Arith F} (v : pyvalue F) :
  accepted v -> Average.addend v = Ok (sum_of v).
Proof.
  destruct v as [z|x|a]; simpl; try done.
  intros Hz. unfold float_of_py_int. now rewrite py_int_accepts.
Qed.

Lemma accepted_batch_mean {F} `{Arith F} (v : pyvalue F) :
  accepted v -> Welford.batch_mean v = Ok (mean_of v).
Proof.
  destruct v as [z|x|a]; simpl; try done.
  intros Hz. unfold float_of_py_int. now rewrite py_int_accepts.
Qed.

Lemma addend_cases {F} `{Arith F} (v : pyvalue F) :
  Average.addend v = Ok (sum_of v) \/ Average.addend v = Raise OverflowError.
Proof. destruct v as [z|x|a]; simpl; auto. apply float_of_py_int_cases. Qed.

Lemma batch_mean_cases {F} `{Arith F} (v : pyvalue F) :
  Welford.batch_mean v = Ok (mean_of v)
  \/ Welford.batch_mean v = Raise OverflowError.
Proof. destruct v as [z|x|a]; simpl; auto. apply float_of_py_int_cases. Qed.

(** An update with an accepted value, in every arithmetic. *)
Lemma average_update_accepted {F} `{Arith F}
    (self : Average.t F) (kw : kwargs F) (v : pyvalue F) :
  kw !! Average.argname self = Some v ->
  accepted v ->
  Average.update self kw
  = (Ok tt,
     {| Average.argname := Average.argname self;
        Average.total := f_add (Average.total self) (sum_of v);
        Average.count :=
          int_add (Average.count self) (Welford.batch_count v) |}).
Proof.
  intros Hkw Hv. unfold Average.update. rewrite Hkw, accepted_addend by done.
  cbn [Average.count Average.argname Average.total].
  change (Average.increment v) with (Welford.batch_count v).
  now rewrite int_iadd_accepts by now apply accepted_count.
Qed.

Lemma welford_update_accepted {F} `{Arith F}
    (self : Welford.t F) (kw : kwargs F) (v : pyvalue F) :
  kw !! Welford.argname self = Some v ->
  accepted v ->
  let count' := int_add (Welford.count self) (Welford.batch_count v) in
  let delta := f_sub (mean_of v) (Welford.mean self) in
  Welford.update self kw
  = (Ok tt,
     {| Welford.argname := Welford.argname self;
        Welford.count := count';
        Welford.mean :=
          f_add (Welford.mean self)
                (f_div (f_mul delta (f_of_int (Welford.batch_count v)))
                       (f_of_int (cell_val count')));
        Welford.m2 :=
          f_add (Welford.m2 self)
                (f_add (Welford.batch_m2 v)
                   (f_div
                      (f_mul (f_mul (f_mul delta delta)
                                    (f_of_int (Welford.batch_count v)))
                             (f_of_int (cell_val (Welford.count self))))
                      (f_of_int (cell_val count')))) |}).
Proof.
  intros Hkw Hv. unfold Welford.update. rewrite Hkw.
  rewrite int_iadd_accepts by now apply accepted_count.
  now rewrite accepted_batch_mean by done.
Qed.

(** What an update leaves when the keyword is present, whatever the
    value: the count takes the observations unless their number is
    refused, and a Python int that is refused as an operand stops the
    update there. *)
Lemma average_update_cases {F} `{Arith F}
    (self : Average.t F) (kw : kwargs F) (v : pyvalue F) :
  kw !! Average.argname self = Some v ->
  let added :=
    {| Average.argname := Average.argname self;
       Average.total := f_add (Average.total self) (sum_of v);
       Average.count := Average.count self |} in
  Average.update self kw
  = (Ok tt,
     {| Average.argname := Average.argname self;
        Average.total := f_add (Average.total self) (sum_of v);
        Average.count :=
          int_add (Average.count self) (Welford.batch_count v) |})
  \/ Average.update self kw = (Raise OverflowError, self)
  \/ Average.update self kw = (Raise OverflowError, added).
Proof.
  intros Hkw added. subst added. unfold Average.update. rewrite Hkw.
  destruct (addend_cases v) as [-> | ->]; [|auto].
  cbn [Average.count Average.argname Average.total].
  change (Average.increment v) with (Welford.batch_count v).
  destruct (int_iadd_cases (Average.count self) (Welford.batch_count v))
    as [-> | ->]; auto.
Qed.

Lemma welford_update_cases {F} `{Arith F}
    (self : Welford.t F) (kw : kwargs F) (v : pyvalue F) :
  kw !! Welford.argname self = Some v ->
  let count' := int_add (Welford.count self) (Welford.batch_count v) in
  let delta := f_sub (mean_of v) (Welford.mean self) in
  Welford.update self kw
  = (Ok tt,
     {| Welford.argname := Welford.argname self;
        Welford.count := count';
        Welford.mean :=
          f_add (Welford.mean self)
                (f_div (f_mul delta (f_of_int (Welford.batch_count v)))
                       (f_of_int (cell_val count')));
        Welford.m2 :=
          f_add (Welford.m2 self)
                (f_add (Welford.batch_m2 v)
                   (f_div
                      (f_mul (f_mul (f_mul delta delta)
                                    (f_of_int (Welford.batch_count v)))
                             (f_of_int (cell_val (Welford.count self))))
                      (f_of_int (cell_val count')))) |})
  \/ Welford.update self kw = (Raise OverflowError, self)
  \/ Welford.update self kw
     = (Raise OverflowError,
        {| Welford.argname := Welford.argname self;
           Welford.count := count';
           Welford.mean := Welford.mean self;
           Welford.m2 := Welford.m2 self |}).
Proof.
  intros Hkw count' delta. subst count' delta.
  unfold Welford.update. rewrite Hkw.
  destruct (int_iadd_cases (Welford.count self) (Welford.batch_count v))
    as [-> | ->]; [|auto].
  destruct (batch_mean_cases v) as [-> | ->]; auto.
Qed.

(** Welford writes the count first: once the number of observations is
    accepted, the count has moved, whatever becomes of the call. *)
Lemma welford_update_count {F} `{Arith F}
    (self : Welford.t F) (kw : kwargs F) (v : pyvalue F) :
  kw !! Welford.argname self = Some v ->
  py_int_ok (Welford.batch_count v) = true ->
  Welford.argname (snd (Welford.update self kw)) = Welford.argname self
  /\ Welford.count (snd (Welford.update self kw))
     = int_add (Welford.count self) (Welford.batch_count v).
Proof.
  intros Hkw Hn. unfold Welford.update. rewrite Hkw.
  rewrite int_iadd_accepts by done.
  now destruct (Welford.batch_mean v).
Qed.

Lemma as_floats_length {F} `{Arith F} (d : adata F) :
  length (as_floats d) = alength d.
Proof. destruct d; simpl; now rewrite ?length_map. Qed.

Lemma wrap_in_range d z : in_range d (wrap d z).
Proof.
  destruct d; unfold in_range, wrap.
  - pose proof (Z.mod_pos_bound (z + 2147483648) 4294967296). lia.
  - pose proof (Z.mod_pos_bound z 4294967296). lia.
Qed.

Lemma wrap_id d z : in_range d z -> wrap d z = z.
Proof. destruct d; unfold in_range, wrap; intros; rewrite Z.mod_small; lia. Qed.

(** ** The update formulas of Welford *)

(** A Python int beyond int32 stops a Welford [update] after the count
    was written: the call raises, the count has moved and [mean] and [m2]
    have not, where the formula asks for a new mean. *)
Lemma welford_python_int_counterexample :
  let self : Welford.t spec_float :=
    feed Welford.update (Welford.init "values")
      [ {[ "values"%string := PyInt 3 ]}; {[ "values"%string := PyInt 5 ]} ] in
  let kw : kwargs spec_float := {[ "values"%string := PyInt 2147483648 ]} in
  self = {| Welford.argname := "values"; Welford.count := IntCell int32 2;
            Welford.mean := B32.of_int 4; Welford.m2 := B32.of_int 2 |}
  /\ kw !! Welford.argname self = Some (PyInt 2147483648)
  /\ Welford.update self kw
     = (Raise OverflowError,
        {| Welford.argname := "values"; Welford.count := IntCell int32 3;
           Welford.mean := B32.of_int 4; Welford.m2 := B32.of_int 2 |})
  /\ f_add (B32.of_int 4)
           (f_div (f_mul (f_sub (B32.of_int 2147483648) (B32.of_int 4))
                         (B32.of_int 1))
                  (B32.of_int 3))
     <> B32.of_int 4.
Proof. vm_compute. repeat split. discriminate. Qed.

(** C1 (amended). A Welford [update] whose keyword is present, carrying a
    value the library accepts (a float, a Python int it converts, an array
    whose size it converts), and for which [count_before + n] stays within
    the count cell: with [n = 1] for a scalar and the array's size
    otherwise, [batch_mean] the scalar or the array's [mean()],
    [batch_var_sum] zero or the array's [var()] times [n], and
    [count_before] the count before the call, it returns normally, sets
    [count] to [count_before + n], computes [delta = batch_mean - mean],
    sets [mean] to [mean + delta * n / count_after] and [m2] to
    [m2 + (batch_var_sum + delta * delta * n * count_before / count_after)].
    This holds whatever the arithmetic and the reductions of the library
    are. *)
Theorem welford_update_formulas {F} `{Arith F}
    (self : Welford.t F) (kw : kwargs F) (values : pyvalue F) :
  kw !! Welford.argname self = Some values ->
  accepted values ->
  let n := match values with PyArr a => asize a | _ => 1 end in
  let batch_mean :=
    match values with
    | PyInt z => f_of_int z
    | PyFloat x => x
    | PyArr a => amean a
    end in
  let batch_var_sum :=
    match values with
    | PyArr a => f_mul (avar a) (f_of_int n)
    | _ => f_zero
    end in
  let dtype := cell_dtype (Welford.count self) in
  let count_before := cell_val (Welford.count self) in
  let count_after := count_before + n in
  let delta := f_sub batch_mean (Welford.mean self) in
  in_range dtype count_after ->
  Welford.update self kw =
    (Ok tt,
     {| Welford.argname := Welford.argname self;
        Welford.count := IntCell dtype count_after;
        Welford.mean :=
          f_add (Welford.mean self)
                (f_div (f_mul delta (f_of_int n)) (f_of_int count_after));
        Welford.m2 :=
          f_add (Welford.m2 self)
                (f_add batch_var_sum
                   (f_div (f_mul (f_mul (f_mul delta delta) (f_of_int n))
                                 (f_of_int count_before))
                          (f_of_int count_after))) |}).
Proof.
  intros Hkw Hv. cbv zeta. intros Hr.
  rewrite (welford_update_accepted self kw values Hkw Hv). cbv zeta.
  unfold int_add. cbn [cell_val].
  change (match values with PyArr a => asize a | _ => 1 end)
    with (Welford.batch_count values) in *.
  rewrite (wrap_id _ _ Hr).
  destruct values; reflexivity.
Qed.

Lemma welford_update_formulas_witness :
  let self : Welford.t spec_float :=
    {| Welford.argname := "values"; Welford.count := IntCell int32 2;
       Welford.mean := B32.of_int 4; Welford.m2 := B32.of_int 2 |} in
  let a : jarray spec_float := JArray [2%nat] (DInt [7; 9]) in
  let kw : kwargs spec_float := {[ "values"%string := PyArr a ]} in
  kw !! Welford.argname self = Some (PyArr a)
  /\ accepted (PyArr a)
  /\ in_range int32 (2 + asize a)
  /\ Welford.update self kw =
       (Ok tt,
        {| Welford.argname := "values"; Welford.count := IntCell int32 4;
           Welford.mean := B32.of_int 6; Welford.m2 := B32.of_int 20 |}).
Proof.
  intros self a kw.
  assert (Hv : accepted (PyArr a)) by reflexivity.
  assert (Hr : in_range int32 (2 + asize a))
    by (vm_compute; split; discriminate).
  split; [reflexivity|]. split; [exact Hv|]. split; [exact Hr|].
  etransitivity;
    [exact (welford_update_formulas self kw (PyArr a) eq_refl Hv Hr)
    |vm_compute; reflexivity].
Defined.

(** ** The configured keyword *)

(** C7. An [update] of an Average or of a Welford accumulator whose keyword
    arguments lack the configured keyword raises [TypeError] and leaves the
    whole state as it was; with the keyword present it does not raise
    [TypeError]. *)
Theorem update_requires_keyword {F} `{Arith F} :
  (forall (self : Average.t F) (kw : kwargs F),
      kw !! Average.argname self = None ->
      Average.update self kw = (Raise TypeError, self))
  /\ (forall (self : Welford.t F) (kw : kwargs F),
      kw !! Welford.argname self = None ->
      Welford.update self kw = (Raise TypeError, self))
  /\ (forall (self : Average.t F) (kw : kwargs F),
      is_Some (kw !! Average.argname self) ->
      fst (Average.update self kw) <> Raise TypeError)
  /\ (forall (self : Welford.t F) (kw : kwargs F),
      is_Some (kw !! Welford.argname self) ->
      fst (Welford.update self kw) <> Raise TypeError).
Proof.
  split; [|split; [|split]].
  - intros self kw Hkw. unfold Average.update. now rewrite Hkw.
  - intros self kw Hkw. unfold Welford.update. now rewrite Hkw.
  - intros self kw [v Hkw].
    destruct (average_update_cases self kw v Hkw) as [-> | [-> | ->]];
      discriminate.
  - intros self kw [v Hkw].
    destruct (welford_update_cases self kw v Hkw) as [-> | [-> | ->]];
      discriminate.
Qed.

Lemma update_requires_keyword_witness :
  let a : Average.t spec_float :=
    {| Average.argname := "loss"; Average.total := B32.of_int 3;
       Average.count := IntCell int32 2 |} in
  let w : Welford.t spec_float :=
    {| Welford.argname := "loss"; Welford.count := IntCell int32 2;
       Welford.mean := B32.of_int 4; Welford.m2 := B32.of_int 2 |} in
  let missing : kwargs spec_float := {[ "values"%string := PyInt 1 ]} in
  let present : kwargs spec_float := {[ "loss"%string := PyInt 1 ]} in
  (missing !! "loss"%string = None
   /\ Average.update a missing = (Raise TypeError, a)
   /\ Welford.update w missing = (Raise TypeError, w))
  /\ (is_Some (present !! "loss"%string)
      /\ fst (Average.update a present) <> Raise TypeError
      /\ fst (Welford.update w present) <> Raise TypeError).
Proof.
  cbv zeta.
  pose proof (update_requires_keyword (F := spec_float)) as (HA & HW & HA' & HW').
  split; [split; [reflexivity|split]|split; [eexists; reflexivity|split]].
  - apply HA. reflexivity.
  - apply HW. reflexivity.
  - apply HA'. eexists; reflexivity.
  - apply HW'. eexists; reflexivity.
Defined.

(** ** Zero count *)

(** A Welford accumulator with no observation reports its zeroed running
    mean, not NaN: the claim that all three fields are NaN fails on a
    freshly constructed accumulator. *)
Lemma welford_zero_count_mean_is_zero :
  fst (Welford.compute (F := spec_float) (Welford.init "values"))
  <> Ok {| stat_mean := B32.nan;
           standard_error_of_mean := B32.nan;
           standard_deviation := B32.nan |}.
Proof. vm_compute. discriminate. Qed.

(** C6 (amended). In binary32, [compute] on an accumulator in the
    zero-count state -- freshly constructed, or just reset -- does not raise
    and leaves the state alone.  Average returns NaN ([0.0 / 0]).  Welford
    returns NaN for [standard_deviation] and [standard_error_of_mean], and
    the zeroed running mean [0.0] for [mean]. *)
Theorem zero_count_compute :
  (forall argname : string,
      Average.compute (F := spec_float) (Average.init argname)
      = (Ok B32.nan, Average.init argname))
  /\ (forall self : Average.t spec_float,
      Average.compute (snd (Average.reset self))
      = (Ok B32.nan, snd (Average.reset self)))
  /\ (forall argname : string,
      Welford.compute (F := spec_float) (Welford.init argname)
      = (Ok {| stat_mean := B32.pzero;
               standard_error_of_mean := B32.nan;
               standard_deviation := B32.nan |},
         Welford.init argname))
  /\ (forall self : Welford.t spec_float,
      Welford.compute (snd (Welford.reset self))
      = (Ok {| stat_mean := B32.pzero;
               standard_error_of_mean := B32.nan;
               standard_deviation := B32.nan |},
         snd (Welford.reset self))).
Proof. repeat split. Qed.

(** ** MultiMetric *)

Section Composite.
Context {F M Out : Type} `{Metric F M Out}.
























End Composite.






(** ** Facts on binary32 arithmetic *)

Section B32Facts.
Let prec := B32.prec.
Let emax := B32.emax.

Lemma binary_round_aux_sign s m e l :
  sign_is s (binary_round_aux prec emax s m e l).
Proof.
  unfold binary_round_aux.
  destruct (shr_fexp prec emax m e l) as [mrs' e'].
  destruct (shr_fexp prec emax _ e' loc_Exact) as [mrs'' e''].
  destruct (shr_m mrs''); simpl; auto.
  destruct (Z.leb _ _); simpl; auto.
Qed.

Lemma binary_round_sign s m e : sign_is s (binary_round prec emax s m e).
Proof.
  unfold binary_round. destruct (shl_align _ _ _). apply binary_round_aux_sign.
Qed.

Lemma of_int_sign z : 0 <= z -> sign_is false (B32.of_int z).
Proof.
  intros Hz. unfold B32.of_int, binary_normalize.
  destruct z; simpl; auto; [apply binary_round_sign | lia].
Qed.

Lemma SFmul_sign x y :
  sign_is false x -> sign_is false y -> sign_is false (SFmul prec emax x y).
Proof.
  destruct x, y; simpl; intros; subst; simpl; auto.
  apply binary_round_aux_sign.
Qed.

Lemma SFmul_self_sign x : sign_is false (SFmul prec emax x x).
Proof.
  destruct x as [s|s| |s m e]; simpl; auto; try now destruct s.
  replace (xorb s s) with false by now destruct s.
  apply binary_round_aux_sign.
Qed.

Lemma SFdiv_sign x y :
  sign_is false x -> sign_is false y -> sign_is false (SFdiv prec emax x y).
Proof.
  destruct x, y; simpl; intros; subst; simpl; auto.
  destruct (SFdiv_core_binary _ _ _ _ _ _) as [[mz ez] lz].
  apply binary_round_aux_sign.
Qed.

Lemma SFadd_sign x y :
  sign_is false x -> sign_is false y -> sign_is false (SFadd prec emax x y).
Proof.
  destruct x as [sx|sx| |sx mx ex], y as [sy|sy| |sy my ey];
    simpl; intros; subst; simpl; auto.
  unfold binary_normalize.
  destruct (shl_align mx ex _) as [a ?], (shl_align my ey _) as [b ?]. simpl.
  apply binary_round_sign.
Qed.

Lemma sign_ge0 x : sign_is false x -> ge0_or_nan x = true.
Proof. destruct x as [s|s| |s m e]; simpl; intros; subst; reflexivity. Qed.

Lemma SFadd_ge0 x y :
  ge0_or_nan x = true -> sign_is false y ->
  ge0_or_nan (SFadd prec emax x y) = true.
Proof.
  intros Hx Hy.
  destruct x as [sx|sx| |sx mx ex]; try (destruct sx; try discriminate Hx);
    try (apply sign_ge0, SFadd_sign; simpl; auto; fail).
  destruct y as [sy|sy| |sy my ey]; simpl in *; subst; reflexivity.
Qed.

Lemma f_sum_sign (l : list spec_float) :
  Forall (sign_is false) l -> sign_is false (f_sum l).
Proof.
  unfold f_sum. assert (H0 : sign_is false (f_zero (F := spec_float))) by reflexivity.
  revert H0. generalize (f_zero (F := spec_float)).
  induction l as [|x l IH]; intros acc Hacc Hl; simpl; [done|].
  inversion Hl; subst. apply IH; [|done]. now apply SFadd_sign.
Qed.

(** Right shifts divide the mantissa by a power of two. *)
Lemma shr_1_m mrs : 0 <= shr_m mrs -> shr_m (shr_1 mrs) = shr_m mrs / 2.
Proof.
  intros Hm.
  apply Z.div_unique with (r := shr_m mrs - 2 * shr_m (shr_1 mrs)); [|lia].
  left. destruct mrs as [m r s]. cbn [shr_m] in *.
  destruct m as [|p|p]; [simpl; lia| |lia].
  destruct p as [p|p|]; cbn [shr_1 shr_m]; lia.
Qed.

Lemma pow2_xO n : 2 ^ Z.pos n~0 = 2 ^ Z.pos n * 2 ^ Z.pos n.
Proof.
  rewrite <- (Z.pow_add_r 2 (Z.pos n) (Z.pos n)) by lia. f_equal. lia.
Qed.

Lemma pow2_xI n : 2 ^ Z.pos n~1 = 2 * 2 ^ Z.pos n * 2 ^ Z.pos n.
Proof.
  rewrite <- Z.mul_assoc, <- pow2_xO.
  rewrite <- (Z.pow_succ_r 2 (Z.pos n~0)) by lia. f_equal.
Qed.

Lemma iter_shr_1_m n : forall mrs, 0 <= shr_m mrs ->
  shr_m (SpecFloat.iter_pos shr_1 n mrs) = shr_m mrs / 2 ^ Zpos n.
Proof.
  induction n as [n IH|n IH|]; intros mrs Hm; simpl SpecFloat.iter_pos.
  - assert (H1 : 0 <= shr_m (shr_1 mrs))
      by (rewrite shr_1_m by lia; apply Z.div_pos; lia).
    assert (H2 : 0 <= shr_m (SpecFloat.iter_pos shr_1 n (shr_1 mrs)))
      by (rewrite IH by lia; apply Z.div_pos; lia).
    rewrite IH, IH, shr_1_m by lia.
    assert (0 < 2 ^ Z.pos n) by (apply Z.pow_pos_nonneg; lia).
    rewrite !Z.div_div by lia. rewrite pow2_xI. f_equal; lia.
  - assert (H2 : 0 <= shr_m (SpecFloat.iter_pos shr_1 n mrs))
      by (rewrite IH by lia; apply Z.div_pos; lia).
    assert (0 < 2 ^ Z.pos n) by (apply Z.pow_pos_nonneg; lia).
    rewrite IH, IH by lia. rewrite Z.div_div by lia. now rewrite pow2_xO.
  - apply shr_1_m, Hm.
Qed.

Lemma digits2_pos_lower p : 2 ^ (Zpos (digits2_pos p) - 1) <= Zpos p.
Proof.
  induction p as [p IH|p IH|]; simpl digits2_pos.
  - rewrite Pos2Z.inj_succ.
    replace (Z.succ (Z.pos (digits2_pos p)) - 1)
      with (Z.succ (Z.pos (digits2_pos p) - 1)) by lia.
    rewrite Z.pow_succ_r by lia. lia.
  - rewrite Pos2Z.inj_succ.
    replace (Z.succ (Z.pos (digits2_pos p)) - 1)
      with (Z.succ (Z.pos (digits2_pos p) - 1)) by lia.
    rewrite Z.pow_succ_r by lia. lia.
  - simpl. lia.
Qed.

Lemma shr_record_of_loc_m m l : shr_m (shr_record_of_loc m l) = m.
Proof. destruct l as [|[]]; reflexivity. Qed.

(** Shifting towards the target exponent keeps a positive mantissa
    positive, and the exponent at or above the least one. *)
Lemma shr_fexp_pos m e l :
  0 < m -> emin32 <= e ->
  0 < shr_m (fst (shr_fexp prec emax m e l))
  /\ emin32 <= snd (shr_fexp prec emax m e l).
Proof.
  intros Hm He. unfold shr_fexp, shr.
  destruct m as [|p|p]; try lia. cbn [Zdigits2].
  destruct (fexp prec emax (Z.pos (digits2_pos p) + e) - e) as [|n|n] eqn:En;
    cbn [fst snd]; rewrite ?shr_record_of_loc_m; try (split; lia).
  rewrite iter_shr_1_m by (rewrite shr_record_of_loc_m; lia).
  rewrite shr_record_of_loc_m.
  unfold fexp, SpecFloat.emin, prec, emax, B32.prec, B32.emax, emin32 in *.
  assert (Hn : Z.pos n = Z.pos (digits2_pos p) - 24) by lia.
  split; [|lia].
  apply Z.div_str_pos. split; [lia|].
  pose proof (digits2_pos_lower p).
  assert (2 ^ Z.pos n <= 2 ^ (Z.pos (digits2_pos p) - 1))
    by (apply Z.pow_le_mono_r; lia).
  lia.
Qed.

Lemma round_nearest_even_pos m l : 0 < m -> 0 < round_nearest_even m l.
Proof. destruct l as [|[]]; simpl; try lia. destruct (Z.even m); lia. Qed.

Lemma binary_round_aux_pos s m e l :
  0 < m -> emin32 <= e ->
  not_zero (binary_round_aux prec emax s m e l)
  /\ exp_ok (binary_round_aux prec emax s m e l).
Proof.
  intros Hm He. unfold binary_round_aux.
  destruct (shr_fexp_pos m e l Hm He) as [H1 H2].
  destruct (shr_fexp prec emax m e l) as [mrs' e']. cbn [fst snd] in *.
  pose proof (round_nearest_even_pos (shr_m mrs') (loc_of_shr_record mrs') H1)
    as H3.
  destruct (shr_fexp_pos _ e' loc_Exact H3 H2) as [H4 H5].
  destruct (shr_fexp prec emax _ e' loc_Exact) as [mrs'' e''].
  cbn [fst snd] in *.
  destruct (shr_m mrs''); try lia.
  destruct (Z.leb _ _); simpl; auto.
Qed.

Lemma binary_round_pos s m e :
  emin32 <= e ->
  not_zero (binary_round prec emax s m e)
  /\ exp_ok (binary_round prec emax s m e).
Proof.
  intros He. unfold binary_round.
  destruct (shl_align m e _) as [mz ez] eqn:Hs.
  apply binary_round_aux_pos; [lia|].
  unfold shl_align in Hs.
  destruct (fexp prec emax (Z.pos (digits2_pos m) + e) - e) eqn:Hd;
    inversion Hs; subst; try lia.
  unfold fexp, SpecFloat.emin, prec, emax, B32.prec, B32.emax, emin32. lia.
Qed.

Lemma SFadd_exp_ok x y :
  exp_ok x -> exp_ok y -> exp_ok (SFadd prec emax x y).
Proof.
  destruct x as [sx|sx| |sx mx ex], y as [sy|sy| |sy my ey];
    simpl; intros Hx Hy; auto; try (destruct sx, sy; simpl; auto; fail).
  unfold binary_normalize.
  destruct (_ + _)%Z; simpl; auto; apply binary_round_pos; lia.
Qed.

(** A sum is [-0.0] only when both operands are. *)
Lemma SFadd_not_nzero x y :
  exp_ok x -> exp_ok y -> x <> B32.nzero -> SFadd prec emax x y <> B32.nzero.
Proof.
  unfold B32.nzero.
  destruct x as [sx|sx| |sx mx ex], y as [sy|sy| |sy my ey];
    simpl; intros Hx Hy Hn;
    try discriminate; try (destruct sx, sy; try discriminate; congruence).
  unfold binary_normalize.
  destruct (_ + _)%Z eqn:E; try discriminate.
  - destruct (binary_round_pos false p (Z.min ex ey)) as [H _]; [lia|].
    intros Heq. rewrite Heq in H. exact H.
  - destruct (binary_round_pos true p (Z.min ex ey)) as [H _]; [lia|].
    intros Heq. rewrite Heq in H. exact H.
Qed.

Lemma of_int_exp_ok z : exp_ok (B32.of_int z).
Proof.
  unfold B32.of_int, binary_normalize.
  destruct z; simpl; auto; apply binary_round_pos; unfold emin32; lia.
Qed.

Lemma valid_binary_exp_ok x :
  valid_binary prec emax x = true -> exp_ok x.
Proof.
  destruct x as [s|s| |s m e]; simpl; auto.
  unfold bounded, canonical_mantissa. intros Hb.
  apply andb_prop in Hb as [Hc _]. apply Z.eqb_eq in Hc.
  unfold fexp, SpecFloat.emin, prec, emax, B32.prec, B32.emax, emin32 in *. lia.
Qed.

Lemma f_sum_exp_ok (l : list spec_float) :
  Forall exp_ok l -> exp_ok (f_sum l).
Proof.
  unfold f_sum. assert (H0 : exp_ok (f_zero (F := spec_float))) by exact I.
  revert H0. generalize (f_zero (F := spec_float)).
  induction l as [|x l IH]; intros acc Hacc Hl; simpl; [done|].
  inversion Hl; subst. apply IH; [|done]. now apply SFadd_exp_ok.
Qed.

Lemma SFadd_pzero_r x : x <> B32.nzero -> SFadd prec emax x B32.pzero = x.
Proof.
  unfold B32.nzero, B32.pzero.
  destruct x as [[]|[]| |s m e]; simpl; congruence.
Qed.
End B32Facts.

(** ** Average: an empty batch *)

Lemma asum_exp_ok (a : jarray spec_float) :
  valid_value (PyArr a) -> exp_ok (asum a).
Proof.
  unfold valid_value, asum. destruct (adat a) as [l|l|l]; intros Hv.
  - apply of_int_exp_ok.
  - apply of_int_exp_ok.
  - change (a_sum l) with (f_sum l).
    apply f_sum_exp_ok. eapply Forall_impl; [exact Hv|].
    intros x Hx. now apply valid_binary_exp_ok.
Qed.

(** On its way from construction, the running total of an Average never
    is [-0.0], and its count is an int32. *)
Lemma average_reachable_inv (self : Average.t spec_float) :
  average_reachable self ->
  exp_ok (Average.total self)
  /\ Average.total self <> B32.nzero
  /\ cell_dtype (Average.count self) = int32
  /\ in_range int32 (cell_val (Average.count self)).
Proof.
  induction 1 as [argname|self Hr IH|self kw Hr IH Hv].
  - simpl. repeat split; try discriminate; lia.
  - simpl. repeat split; try discriminate; lia.
  - destruct IH as (He & Hz & Hd & Hc).
    destruct (kw !! Average.argname self) as [v|] eqn:Hkw;
      [|unfold Average.update; now rewrite Hkw].
    specialize (Hv v eq_refl).
    assert (Hcontrib : exp_ok (sum_of v)).
    { destruct v as [z|x|a].
      - apply of_int_exp_ok.
      - now apply valid_binary_exp_ok.
      - now apply asum_exp_ok. }
    destruct (average_update_cases self kw v Hkw) as [-> | [-> | ->]];
      cbn [snd Average.total Average.count]; [|done|].
    + split; [|split; [|split]].
      * now apply SFadd_exp_ok.
      * now apply SFadd_not_nzero.
      * exact Hd.
      * unfold int_add. cbn [cell_val]. rewrite Hd.
        apply (wrap_in_range int32).
    + split; [|split; [|split]]; try done.
      * now apply SFadd_exp_ok.
      * now apply SFadd_not_nzero.
Qed.

Lemma asum_empty (a : jarray spec_float) :
  asize a = 0 -> asum a = B32.pzero.
Proof.
  unfold asize, asum. intros Hs.
  destruct (adat a) as [l|l|l]; simpl in Hs; destruct l; try discriminate Hs;
    reflexivity.
Qed.

(** C10. An [update] of an Average accumulator with an empty array under
    the configured keyword returns normally and leaves [total] and [count]
    exactly as they were, so [compute()] returns what it returned before.
    In binary32, for every state an Average goes through from its
    construction. *)
Theorem average_empty_batch_noop
    (self : Average.t spec_float) (kw : kwargs spec_float)
    (a : jarray spec_float) :
  average_reachable self ->
  kw !! Average.argname self = Some (PyArr a) ->
  asize a = 0 ->
  Average.update self kw = (Ok tt, self)
  /\ Average.compute (snd (Average.update self kw)) = Average.compute self.
Proof.
  intros Hr Hkw Hs.
  destruct (average_reachable_inv self Hr) as (He & Hz & Hd & Hc).
  assert (Hu : Average.update self kw = (Ok tt, self)).
  { rewrite (average_update_accepted self kw (PyArr a) Hkw)
      by (cbn [accepted]; now rewrite Hs).
    cbn [sum_of Welford.batch_count]. rewrite Hs, (asum_empty a Hs). f_equal.
    destruct self as [n t [d c]]. simpl in *. subst d. f_equal.
    - now apply SFadd_pzero_r.
    - unfold int_add. simpl. f_equal. rewrite Z.add_0_r.
      now apply (wrap_id int32). }
  split; [exact Hu|]. now rewrite Hu.
Qed.

Lemma average_empty_batch_noop_witness :
  let self : Average.t spec_float :=
    snd (Average.update (Average.init "values")
           {[ "values"%string := PyFloat (B32.of_int (-3)) ]}) in
  let a : jarray spec_float := JArray [0%nat] (DFloat []) in
  let kw : kwargs spec_float := {[ "values"%string := PyArr a ]} in
  average_reachable self
  /\ kw !! Average.argname self = Some (PyArr a)
  /\ asize a = 0
  /\ Average.update self kw = (Ok tt, self).
Proof.
  intros self a kw.
  assert (Hr : average_reachable self).
  { apply reach_update; [apply reach_init|].
    intros v Hv. vm_compute in Hv. inversion Hv. reflexivity. }
  split; [exact Hr|]. split; [reflexivity|]. split; [reflexivity|].
  exact (proj1 (average_empty_batch_noop self kw a Hr eq_refl eq_refl)).
Defined.

(** ** State predicates *)

(** A single finite observation can leave [m2] NaN, for which [m2 >= 0] is
    false: the square of [delta = 2^67] overflows to infinity, which is
    then multiplied by the previous count, zero.  And a count at the top of
    its int32 range wraps to a negative number. *)
Lemma invariant_counterexample :
  (let r := Welford.update (F := spec_float) (Welford.init "values")
              {[ "values"%string := PyFloat (B32.make 1 67) ]} in
   fst r = Ok tt
   /\ Welford.m2 (snd r) = B32.nan
   /\ SFleb B32.pzero (Welford.m2 (snd r)) = false)
  /\ (let r := Average.update (F := spec_float)
                 {| Average.argname := "values";
                    Average.total := B32.of_int 0;
                    Average.count := IntCell int32 2147483647 |}
                 {[ "values"%string := PyInt 0 ]} in
      fst r = Ok tt /\ cell_val (Average.count (snd r)) = -2147483648).
Proof. vm_compute. repeat split. Qed.

Lemma batch_count_nonneg {F} `{Arith F} (v : pyvalue F) :
  0 <= Welford.batch_count v.
Proof. destruct v; simpl; unfold asize; lia. Qed.

Lemma squares_sign (m : spec_float) (l : list spec_float) :
  Forall (sign_is false)
    (map (fun c => f_mul c c) (map (fun x => f_sub x m) l)).
Proof.
  induction l as [|x l IH]; simpl; constructor; [|exact IH].
  apply SFmul_self_sign.
Qed.

Lemma var_in_order_sign (l : list spec_float) :
  sign_is false
    (var_in_order B32.pzero B32.of_int B32.add B32.sub B32.mul B32.div l).
Proof.
  unfold var_in_order.
  set (m := mean_in_order B32.pzero B32.of_int B32.add B32.div l).
  unfold B32.div at 1.
  apply SFdiv_sign; [|apply of_int_sign; lia].
  change (sign_is false
            (f_sum (map (fun c => f_mul c c) (map (fun x => f_sub x m) l)))).
  apply f_sum_sign, squares_sign.
Qed.

Lemma batch_m2_sign (v : pyvalue spec_float) :
  sign_is false (Welford.batch_m2 v).
Proof.
  destruct v as [z|x|a]; simpl; try reflexivity.
  apply SFmul_sign; [|apply of_int_sign; unfold asize; lia].
  apply var_in_order_sign.
Qed.

(** C9 (amended). In binary32, [count >= 0] and "[m2] is not negative"
    ([m2 >= 0], or [m2] is NaN) hold of a Welford accumulator after
    construction and after [reset], and every [update] that does not take
    the count out of the range of its cell preserves them; likewise
    [count >= 0] for an Average accumulator. *)
Theorem count_m2_invariants :
  (forall argname : string, welford_inv (Welford.init argname))
  /\ (forall self : Welford.t spec_float,
        welford_inv (snd (Welford.reset self)))
  /\ (forall (self : Welford.t spec_float) (kw : kwargs spec_float),
        welford_inv self ->
        (forall values, kw !! Welford.argname self = Some values ->
           in_range (cell_dtype (Welford.count self))
             (cell_val (Welford.count self) + Welford.batch_count values)) ->
        welford_inv (snd (Welford.update self kw)))
  /\ (forall argname : string,
        0 <= cell_val (Average.count (Average.init (F := spec_float) argname)))
  /\ (forall self : Average.t spec_float,
        0 <= cell_val (Average.count (snd (Average.reset self))))
  /\ (forall (self : Average.t spec_float) (kw : kwargs spec_float),
        0 <= cell_val (Average.count self) ->
        (forall values, kw !! Average.argname self = Some values ->
           in_range (cell_dtype (Average.count self))
             (cell_val (Average.count self) + Welford.batch_count values)) ->
        0 <= cell_val (Average.count (snd (Average.update self kw)))).
Proof.
  split; [|split; [|split; [|split; [|split]]]].
  - intros argname. split; [simpl; lia|reflexivity].
  - intros self. split; [simpl; lia|reflexivity].
  - intros self kw [Hc Hm] Hrange.
    destruct (kw !! Welford.argname self) as [v|] eqn:Hkw;
      [|unfold Welford.update; rewrite Hkw; now split].
    specialize (Hrange v eq_refl).
    pose proof (batch_count_nonneg v) as Hn.
    assert (Hc' : cell_val (int_add (Welford.count self) (Welford.batch_count v))
                  = cell_val (Welford.count self) + Welford.batch_count v)
      by (unfold int_add; simpl; now apply wrap_id).
    destruct (welford_update_cases self kw v Hkw) as [-> | [-> | ->]];
      [|now split|split; cbn [snd Welford.count Welford.m2];
                  [rewrite Hc'; lia|exact Hm]].
    split; cbn [snd Welford.count Welford.m2].
    + rewrite Hc'. lia.
    + apply SFadd_ge0; [exact Hm|].
      apply SFadd_sign; [apply batch_m2_sign|].
      apply SFdiv_sign; [|apply of_int_sign; rewrite Hc'; lia].
      apply SFmul_sign; [|now apply of_int_sign].
      apply SFmul_sign; [|now apply of_int_sign].
      apply SFmul_self_sign.
  - intros argname. simpl. lia.
  - intros self. simpl. lia.
  - intros self kw Hc Hrange.
    destruct (kw !! Average.argname self) as [v|] eqn:Hkw;
      [|unfold Average.update; now rewrite Hkw].
    specialize (Hrange v eq_refl).
    pose proof (batch_count_nonneg v) as Hn.
    destruct (average_update_cases self kw v Hkw) as [-> | [-> | ->]];
      cbn [snd Average.count]; [|exact Hc..].
    unfold int_add. cbn [cell_val].
    rewrite wrap_id by exact Hrange. lia.
Qed.

Lemma count_m2_invariants_witness :
  let w : Welford.t spec_float :=
    {| Welford.argname := "values"; Welford.count := IntCell uint32 2;
       Welford.mean := B32.of_int 4; Welford.m2 := B32.of_int 2 |} in
  let a : Average.t spec_float :=
    {| Average.argname := "values"; Average.total := B32.of_int 8;
       Average.count := IntCell int32 2 |} in
  let kw : kwargs spec_float :=
    {[ "values"%string := PyArr (JArray [2%nat] (DInt [7; -9])) ]} in
  welford_inv w
  /\ welford_inv (snd (Welford.update w kw))
  /\ 0 <= cell_val (Average.count (snd (Average.update a kw))).
Proof.
  intros w a kw.
  destruct count_m2_invariants as (_ & _ & HW & _ & _ & HA).
  assert (Hw : welford_inv w) by (split; [simpl; lia|reflexivity]).
  split; [exact Hw|]. split.
  - apply HW; [exact Hw|].
    intros v Hv. vm_compute in Hv. inversion Hv.
    subst w. vm_compute. split; discriminate.
  - apply HA; [simpl; lia|].
    intros v Hv. vm_compute in Hv. inversion Hv.
    subst a. vm_compute. split; discriminate.
Defined.

(** ** Accuracy *)

Lemma chunks_length {A} (d n : nat) (l : list A) : length (chunks d n l) = n.
Proof. revert l. induction n; intros l; simpl; [done|]. now rewrite IHn. Qed.

Lemma concat_chunks_1 {A} (n : nat) (l : list A) :
  length l = n -> concat (chunks 1 n l) = l.
Proof.
  revert l. induction n; intros l Hl; simpl.
  - now destruct l.
  - destruct l as [|x l]; [discriminate|]. simpl in *.
    rewrite drop_0. f_equal. apply IHn. lia.
Qed.

Lemma broadcast_to_same {A} (n : nat) (l : list A) :
  length l = n -> broadcast_to [n] [n] l = l.
Proof.
  intros Hl. simpl. rewrite Nat.eqb_refl.
  change (map (broadcast_to [] []) ?x) with (map (fun y : list A => y) x).
  rewrite List.map_id. now apply concat_chunks_1.
Qed.

Lemma sum_hits (p l : list Z) (acc : Z) :
  fold_left Z.add (map Z.b2z (zip_with Z.eqb p l)) acc
  = acc + matching_rows p l.
Proof.
  unfold matching_rows. revert l acc.
  induction p as [|x p IH]; intros l acc; simpl; [lia|].
  destruct l as [|y l]; simpl; [lia|].
  rewrite IH. destruct (x =? y); cbn [Z.b2z length]; lia.
Qed.

Lemma matching_rows_bound (p l : list Z) :
  0 <= matching_rows p l <= Z.of_nat (length l).
Proof.
  unfold matching_rows. split; [lia|].
  apply inj_le. etransitivity; [apply List.filter_length_le|].
  rewrite length_combine. lia.
Qed.

Lemma predicted_classes_length {F} `{Arith F} classes batch (scores : adata F) :
  length (predicted_classes classes batch scores) = batch.
Proof.
  destruct scores; simpl; now rewrite length_map, chunks_length.
Qed.

(** On integer scores, [argmax] is the index of the first greatest
    element of the row. *)
Lemma argmax_from_int_spec (l : list Z) :
  forall (pre : list Z) (best : Z) (besti : nat),
    pre !! besti = Some best ->
    (forall j x, pre !! j = Some x -> x <= best) ->
    (forall j x, (j < besti)%nat -> pre !! j = Some x -> x < best) ->
    exists m,
      (pre ++ l) !! argmax_from better_int best besti (length pre) l = Some m
      /\ (forall j x, (pre ++ l) !! j = Some x -> x <= m)
      /\ (forall j x,
            (j < argmax_from better_int best besti (length pre) l)%nat ->
            (pre ++ l) !! j = Some x -> x < m).
Proof.
  induction l as [|y l IH]; intros pre best besti Hbest Hle Hlt.
  - simpl. rewrite app_nil_r. eauto.
  - pose proof (lookup_lt_Some _ _ _ Hbest) as Hbi.
    simpl.
    replace (pre ++ y :: l) with ((pre ++ [y]) ++ l)
      by (now rewrite <- app_assoc).
    replace (S (length pre)) with (length (pre ++ [y]))
      by (rewrite length_app; simpl; lia).
    destruct (better_int y best) eqn:Hy; unfold better_int in Hy;
      [apply Z.ltb_lt in Hy; apply (IH (pre ++ [y]) y (length pre))
      |apply Z.ltb_ge in Hy; apply (IH (pre ++ [y]) best besti)].
    + rewrite lookup_app_r by lia. now rewrite Nat.sub_diag.
    + intros j x Hj. apply lookup_app_Some in Hj as [Hj|[_ Hj]].
      * specialize (Hle j x Hj). lia.
      * destruct (j - length pre)%nat; simpl in Hj; [|done].
        inversion Hj. lia.
    + intros j x Hjl Hj. rewrite lookup_app_l in Hj by lia.
      specialize (Hle j x Hj). lia.
    + now rewrite lookup_app_l by lia.
    + intros j x Hj. apply lookup_app_Some in Hj as [Hj|[_ Hj]].
      * now apply (Hle j).
      * destruct (j - length pre)%nat; simpl in Hj; [|done].
        inversion Hj. lia.
    + intros j x Hjl Hj. rewrite lookup_app_l in Hj by lia.
      now apply (Hlt j).
Qed.

Lemma argmax_row_int_first_max (row : list Z) :
  row <> [] ->
  exists (k : nat) (m : Z),
    argmax_row better_int row = Z.of_nat k
    /\ row !! k = Some m
    /\ (forall j x, row !! j = Some x -> x <= m)
    /\ (forall j x, (j < k)%nat -> row !! j = Some x -> x < m).
Proof.
  destruct row as [|x l]; [done|]. intros _.
  destruct (argmax_from_int_spec l [x] x 0%nat) as (m & Hm & Hle & Hlt).
  - reflexivity.
  - intros [|j] y Hj; simpl in Hj; [|done]. inversion Hj. lia.
  - intros j y Hj. lia.
  - exists (argmax_from better_int x 0 1 l), m. simpl in *. auto.
Qed.

(** A first update of an Accuracy constructed with the default keyword. *)
(** One update of an Accuracy listening to [values], in any state: the
    matching rows are added to [total], the rows to [count]. *)
Lemma accuracy_update_rows {F} `{Arith F}
    (self : Average.t F) (kw : kwargs F) (batch classes : nat)
    (scores : adata F) (labs : list Z) :
  Average.argname self = "values"%string ->
  cell_dtype (Average.count self) = int32 ->
  0 <= cell_val (Average.count self) ->
  cell_val (Average.count self) + Z.of_nat batch <= 2147483647 ->
  kw !! "logits"%string = Some (PyArr (JArray [batch; classes] scores)) ->
  kw !! "labels"%string = Some (PyArr (JArray [batch] (DInt labs))) ->
  length labs = batch ->
  (1 <= classes)%nat ->
  Accuracy.update self kw
  = (Ok tt,
     {| Average.argname := "values";
        Average.total :=
          f_add (Average.total self)
            (f_of_int (matching_rows
                         (predicted_classes classes batch scores) labs));
        Average.count :=
          IntCell int32 (cell_val (Average.count self) + Z.of_nat batch) |}).
Proof.
  intros Hname Hd Hc Hr Hlogits Hlabels Hlabs Hclasses.
  unfold Accuracy.update. rewrite Hlogits, Hlabels.
  cbn [ndim shape length is_int32 adat Nat.eqb Nat.add negb orb].
  unfold argmax_last. cbn [shape last].
  destruct classes as [|d]; [lia|].
  cbn [removelast prod_shape fold_right]. rewrite Nat.mul_1_r.
  unfold Accuracy.eq_labels. cbn [adat shape].
  fold (predicted_classes (S d) batch scores).
  pose proof (predicted_classes_length (S d) batch scores) as Hp.
  unfold int_array_eq, broadcast_shapes, pad_shape.
  cbn [length Nat.max Nat.sub repeat app broadcast_dims].
  rewrite Nat.eqb_refl. cbn [length Nat.sub repeat app].
  rewrite !broadcast_to_same by done.
  set (hits := JArray [batch]
                 (DBool (zip_with Z.eqb
                           (predicted_classes (S d) batch scores) labs))).
  assert (Hsize : asize hits = Z.of_nat batch).
  { unfold asize, hits. cbn [adat alength].
    now rewrite length_zip_with, Hp, Hlabs, Nat.min_id. }
  rewrite (average_update_accepted self _ (PyArr hits)).
  - cbn [sum_of Welford.batch_count]. rewrite Hsize, Hname.
    unfold asum, hits, int_add. cbn [adat]. rewrite Hd.
    rewrite sum_hits, Z.add_0_l.
    pose proof (matching_rows_bound (predicted_classes (S d) batch scores) labs).
    rewrite (wrap_id int32) by (unfold in_range; lia).
    rewrite (wrap_id int32) by (unfold in_range; lia).
    reflexivity.
  - rewrite Hname. apply lookup_singleton_eq.
  - cbn [accepted]. rewrite Hsize. apply py_int_ok_small. lia.
Qed.

Lemma accuracy_first_update {F} `{Arith F}
    (kw : kwargs F) (batch classes : nat) (scores : adata F) (labs : list Z) :
  kw !! "logits"%string = Some (PyArr (JArray [batch; classes] scores)) ->
  kw !! "labels"%string = Some (PyArr (JArray [batch] (DInt labs))) ->
  length labs = batch ->
  (1 <= classes)%nat ->
  Z.of_nat batch <= 2147483647 ->
  Accuracy.update (Accuracy.init "values") kw
  = (Ok tt,
     {| Average.argname := "values";
        Average.total :=
          f_add f_zero
            (f_of_int (matching_rows
                         (predicted_classes classes batch scores) labs));
        Average.count := IntCell int32 (Z.of_nat batch) |}).
Proof.
  intros Hlogits Hlabels Hlabs Hclasses Hbatch.
  now rewrite (accuracy_update_rows (Accuracy.init "values") kw batch classes
                 scores labs) by (try done; simpl; lia).
Qed.

Lemma wf_labels {F} (batch : nat) (labs : list Z) :
  wf_array (F := F) (JArray [batch] (DInt labs)) -> length labs = batch.
Proof. unfold wf_array. simpl. lia. Qed.

Lemma SFadd_pzero_l y :
  sign_is false y -> SFadd B32.prec B32.emax B32.pzero y = y.
Proof. destruct y as [s|s| |s m e]; simpl; intros; subst; reflexivity. Qed.

(** Accuracy hands the array over under the name [values], whatever
    keyword the accumulator was constructed with: constructed with another
    one, its [update] ends in Average's [TypeError]. *)
Lemma accuracy_other_keyword {F} `{Arith F}
    (self : Average.t F) (hits : jarray F) :
  Average.argname self <> "values"%string ->
  Average.update self {[ "values"%string := PyArr hits ]}
  = (Raise TypeError, self).
Proof.
  intros Hne. unfold Average.update.
  now rewrite lookup_singleton_ne by congruence.
Qed.

(** The example of the specification has four matching rows out of five:
    the accuracy is 0.8 (and the mean loss 2.5). *)
Lemma accuracy_example :
  fst (MultiMetric.compute
         (snd (MultiMetric.update (MultiMetric.init ex_metrics) ex_updates)))
  = Ok [("accuracy"%string,
         VScalar (SFdiv B32.prec B32.emax (B32.of_int 4) (B32.of_int 5)));
        ("loss"%string,
         VScalar (SFdiv B32.prec B32.emax (B32.of_int 5) (B32.of_int 2)))].
Proof. vm_compute. reflexivity. Qed.

(** C5. Accuracy's [update] raises [ValueError] and leaves the state
    alone when the rank of [logits] is not the rank of [labels] plus one or
    [labels] is not int32; otherwise it passes the bool array
    [argmax(logits, last axis) == labels] on to Average's [update] as
    [values].  After one update of a fresh [Accuracy()] with [logits] of shape
    (batch, classes) and int32 [labels] of shape (batch,), [compute()]
    returns the number of rows whose argmax is their label divided by
    [batch]: in binary32 the float32 quotient of the two integers, in exact
    arithmetic the fraction itself. *)
Theorem accuracy_update_spec :
  (forall F (A : Arith F) (self : Average.t F) (kw : kwargs F)
          (logits labels : jarray F),
      kw !! "logits"%string = Some (PyArr logits) ->
      kw !! "labels"%string = Some (PyArr labels) ->
      ndim logits <> (ndim labels + 1)%nat \/ is_int32 labels = false ->
      Accuracy.update self kw = (Raise ValueError, self))
  /\ (forall F (A : Arith F) (self : Average.t F) (kw : kwargs F)
             (logits labels predicted hits : jarray F),
      kw !! "logits"%string = Some (PyArr logits) ->
      kw !! "labels"%string = Some (PyArr labels) ->
      ndim logits = (ndim labels + 1)%nat ->
      is_int32 labels = true ->
      argmax_last logits = Ok predicted ->
      Accuracy.eq_labels predicted labels = Ok hits ->
      Accuracy.update self kw
      = Average.update self {[ "values"%string := PyArr hits ]})
  /\ (forall (kw : kwargs spec_float) (batch classes : nat)
             (scores : adata spec_float) (labs : list Z),
      kw !! "logits"%string = Some (PyArr (JArray [batch; classes] scores)) ->
      kw !! "labels"%string = Some (PyArr (JArray [batch] (DInt labs))) ->
      wf_array (JArray [batch; classes] scores) ->
      wf_array (F := spec_float) (JArray [batch] (DInt labs)) ->
      (1 <= classes)%nat ->
      Z.of_nat batch <= 2147483647 ->
      let r := Accuracy.update (Accuracy.init "values") kw in
      fst r = Ok tt
      /\ fst (Accuracy.compute (snd r))
         = Ok (SFdiv B32.prec B32.emax
                 (B32.of_int (matching_rows
                                (predicted_classes classes batch scores) labs))
                 (B32.of_int (Z.of_nat batch))))
  /\ (forall (kw : kwargs R) (batch classes : nat)
             (scores : adata R) (labs : list Z),
      kw !! "logits"%string = Some (PyArr (JArray [batch; classes] scores)) ->
      kw !! "labels"%string = Some (PyArr (JArray [batch] (DInt labs))) ->
      wf_array (JArray [batch; classes] scores) ->
      wf_array (F := R) (JArray [batch] (DInt labs)) ->
      (1 <= classes)%nat ->
      Z.of_nat batch <= 2147483647 ->
      let r := Accuracy.update (Accuracy.init "values") kw in
      fst r = Ok tt
      /\ fst (Accuracy.compute (snd r))
         = Ok (IZR (matching_rows
                      (predicted_classes classes batch scores) labs)
               / IZR (Z.of_nat batch))%R).
Proof.
  split; [|split; [|split]].
  - intros F A self kw logits labels Hlo Hla Hbad.
    unfold Accuracy.update. rewrite Hlo, Hla.
    destruct Hbad as [Hrank|Hdtype].
    + apply Nat.eqb_neq in Hrank. now rewrite Hrank.
    + rewrite Hdtype. now rewrite orb_true_r.
  - intros F A self kw logits labels predicted hits Hlo Hla Hrank Hdtype Hp Hh.
    unfold Accuracy.update. rewrite Hlo, Hla.
    apply Nat.eqb_eq in Hrank. rewrite Hrank, Hdtype. simpl.
    now rewrite Hp, Hh.
  - intros kw batch classes scores labs Hlo Hla _ Hlabs Hc Hb r. subst r.
    apply wf_labels in Hlabs.
    rewrite (accuracy_first_update kw batch classes scores labs) by done.
    split; [reflexivity|]. simpl. do 2 f_equal.
    apply SFadd_pzero_l, of_int_sign.
    apply matching_rows_bound.
  - intros kw batch classes scores labs Hlo Hla _ Hlabs Hc Hb r. subst r.
    apply wf_labels in Hlabs.
    rewrite (accuracy_first_update kw batch classes scores labs) by done.
    split; [reflexivity|]. simpl. do 2 f_equal. apply Rplus_0_l.
Qed.


(** ** Exact arithmetic *)

Lemma fold_left_Rplus (l : list R) (a : R) :
  fold_left Rplus l a = (a + Rsum l)%R.
Proof.
  revert a. induction l as [|x l IH]; intros a; simpl; [lra|].
  rewrite IH. lra.
Qed.

Lemma f_sum_R (l : list R) : f_sum l = Rsum l.
Proof. unfold f_sum. rewrite fold_left_Rplus. simpl. lra. Qed.

Lemma a_sum_R (l : list R) : a_sum l = Rsum l.
Proof. exact (f_sum_R l). Qed.

Lemma a_mean_R (l : list R) : a_mean l = (Rsum l / INR (length l))%R.
Proof.
  cbn [a_mean arith_R]. unfold mean_in_order.
  change (sum_in_order 0%R Rplus l) with (f_sum l).
  now rewrite f_sum_R, <- INR_IZR_INZ.
Qed.

Lemma a_var_R (l : list R) :
  a_var l
  = (Rsum (map (fun x => (x - Rsum l / INR (length l))
                         * (x - Rsum l / INR (length l))) l)
     / INR (length l))%R.
Proof.
  cbn [a_var arith_R]. unfold var_in_order.
  change (mean_in_order 0%R IZR Rplus Rdiv l) with (a_mean l).
  rewrite a_mean_R, map_map.
  change (sum_in_order 0%R Rplus ?x) with (f_sum x).
  now rewrite f_sum_R, <- INR_IZR_INZ.
Qed.

Lemma accepted_R (v : pyvalue R) : accepted v.
Proof. now destruct v. Qed.

Lemma Rsum_app (l1 l2 : list R) : Rsum (l1 ++ l2) = (Rsum l1 + Rsum l2)%R.
Proof. induction l1 as [|x l IH]; simpl; [lra|]. unfold Rsum in *. simpl. rewrite IH. lra. Qed.

Lemma Rsum_sq_dev (mu : R) (l : list R) :
  Rsum (map (fun x => ((x - mu) * (x - mu))%R) l)
  = (Rsumsq l - 2 * mu * Rsum l + INR (length l) * mu * mu)%R.
Proof.
  unfold Rsumsq.
  induction l as [|x l IH].
  - simpl. lra.
  - change (length (x :: l)) with (S (length l)). rewrite S_INR.
    simpl. unfold Rsum in *. simpl in *. rewrite IH. lra.
Qed.

(* one scalar step of Welford in R *)
Lemma welford_scalar_step (self : Welford.t R) (kw : kwargs R) (v : pyvalue R) (x : R) :
  kw !! Welford.argname self = Some v ->
  observations v = [x] -> is_scalar v ->
  0 <= cell_val (Welford.count self) ->
  in_range (cell_dtype (Welford.count self)) (cell_val (Welford.count self) + 1) ->
  let N := IZR (cell_val (Welford.count self)) in
  let self' := snd (Welford.update self kw) in
  fst (Welford.update self kw) = Ok tt
  /\ Welford.argname self' = Welford.argname self
  /\ Welford.count self' = IntCell (cell_dtype (Welford.count self)) (cell_val (Welford.count self) + 1)
  /\ Welford.mean self' = (Welford.mean self + (x - Welford.mean self) / (N + 1))%R
  /\ Welford.m2 self' = (Welford.m2 self + (x - Welford.mean self) * (x - Welford.mean self) * N / (N + 1))%R.
Proof.
  intros Hkw Hobs Hsc Hc Hr N self'. subst self' N.
  rewrite (welford_update_accepted self kw v Hkw (accepted_R v)). cbv zeta.
  assert (Hbm : mean_of v = x) by (destruct v; simpl in *; try done; congruence).
  assert (Hbc : Welford.batch_count v = 1) by (destruct v; simpl in *; done).
  assert (Hb2 : Welford.batch_m2 v = 0%R) by (destruct v; simpl in *; done).
  rewrite Hbm, Hbc, Hb2. cbn [fst snd Welford.argname Welford.count Welford.mean Welford.m2].
  unfold int_add. cbn [cell_dtype cell_val]. rewrite wrap_id by done.
  repeat split.
  - simpl. rewrite plus_IZR. simpl. field.
    assert (0 <= IZR (cell_val (Welford.count self)))%R by (apply IZR_le; lia). lra.
  - simpl. rewrite plus_IZR. simpl. field.
    assert (0 <= IZR (cell_val (Welford.count self)))%R by (apply IZR_le; lia). lra.
Qed.

Lemma scalar_observation {F} `{Arith F} (v : pyvalue F) :
  is_scalar v -> exists x, observations v = [x].
Proof. destruct v; simpl; intros Hs; try done; eauto. Qed.

Lemma in_range_mono d a b c : 0 <= a -> a <= b -> b <= c -> in_range d a -> in_range d c -> in_range d b.
Proof. destruct d; unfold in_range; lia. Qed.

Lemma welford_feed_scalars (kws : list (kwargs R)) :
  forall (vs : list (pyvalue R)) (self : Welford.t R),
  carries (Welford.argname self) kws vs ->
  Forall is_scalar vs ->
  0 <= cell_val (Welford.count self) ->
  in_range (cell_dtype (Welford.count self))
           (cell_val (Welford.count self) + Z.of_nat (length vs)) ->
  let xs := concat (map observations vs) in
  let N := IZR (cell_val (Welford.count self)) in
  let k := INR (length vs) in
  let final := feed Welford.update self kws in
  Welford.argname final = Welford.argname self
  /\ Welford.count final
     = IntCell (cell_dtype (Welford.count self))
               (cell_val (Welford.count self) + Z.of_nat (length vs))
  /\ ((N + k) * Welford.mean final = N * Welford.mean self + Rsum xs)%R
  /\ (Welford.m2 final
      = Welford.m2 self + N * Welford.mean self * Welford.mean self
        + Rsumsq xs - (N + k) * Welford.mean final * Welford.mean final)%R.
Proof.
  induction kws as [|kw kws IH]; intros vs self Hcar Hsc Hc Hr.
  - inversion Hcar; subst. simpl. unfold feed, Rsumsq. simpl.
    split; [done|]. split; [destruct (Welford.count self); simpl; f_equal; lia|].
    split; lra.
  - inversion Hcar as [|kw' v kws' vs' Hkw Hcar']; subst.
    inversion Hsc as [|v' vs'' Hv Hsc']; subst.
    destruct (scalar_observation v Hv) as [x Hx].
    assert (Hr1 : in_range (cell_dtype (Welford.count self)) (cell_val (Welford.count self) + 1)).
    { pose proof (wrap_in_range (cell_dtype (Welford.count self)) 0).
      simpl length in Hr. destruct (cell_dtype (Welford.count self)); unfold in_range in *; lia. }
    destruct (welford_scalar_step self kw v x Hkw Hx Hv Hc Hr1)
      as (Hok & Hname & Hcount & Hmean & Hm2).
    set (self1 := snd (Welford.update self kw)) in *.
    change (feed Welford.update self (kw :: kws)) with (feed Welford.update self1 kws).
    specialize (IH vs' self1).
    rewrite Hname, Hcount in IH. cbn [cell_dtype cell_val] in IH.
    destruct IH as (IHn & IHc & IHmean & IHm2); [done|done|lia| |].
    { simpl length in Hr. rewrite Nat2Z.inj_succ in Hr.
      replace (cell_val (Welford.count self) + 1 + Z.of_nat (length vs'))
        with (cell_val (Welford.count self) + Z.succ (Z.of_nat (length vs'))) by lia.
      exact Hr. }
    cbn zeta. simpl map. simpl concat. rewrite Hx. simpl app.
    change (length (v :: vs')) with (S (length vs')). rewrite S_INR.
    rewrite plus_IZR in IHmean, IHm2.
    assert (HN : (0 <= IZR (cell_val (Welford.count self)))%R) by (apply IZR_le; lia).
    set (N := IZR (cell_val (Welford.count self))) in *.
    set (k := INR (length vs')) in *.
    set (mf := Welford.mean (feed Welford.update self1 kws)) in *.
    split; [done|]. split.
    { rewrite IHc. f_equal. lia. }
    unfold Rsumsq in *. simpl Rsum. unfold Rsum in *. simpl fold_right.
    rewrite Hmean in IHmean, IHm2. rewrite Hm2 in IHm2.
    split.
    + replace ((N + (k + 1)) * mf)%R with ((N + 1 + k) * mf)%R by lra.
      rewrite IHmean. field. lra.
    + rewrite IHm2. field. lra.
Qed.

Lemma scalar_observations_length {F} `{Arith F} (vs : list (pyvalue F)) :
  Forall is_scalar vs -> length (concat (map observations vs)) = length vs.
Proof.
  induction 1 as [|v vs Hv _ IH]; simpl; [done|].
  destruct (scalar_observation v Hv) as [x ->]. simpl. now rewrite IH.
Qed.

(** The count after a run of scalar updates, in every arithmetic. *)
Lemma welford_feed_count {F} `{Arith F} (kws : list (kwargs F)) :
  forall (vs : list (pyvalue F)) (self : Welford.t F),
  carries (Welford.argname self) kws vs ->
  Forall is_scalar vs ->
  0 <= cell_val (Welford.count self) ->
  in_range (cell_dtype (Welford.count self))
           (cell_val (Welford.count self) + Z.of_nat (length vs)) ->
  Welford.count (feed Welford.update self kws)
  = IntCell (cell_dtype (Welford.count self))
            (cell_val (Welford.count self) + Z.of_nat (length vs)).
Proof.
  induction kws as [|kw kws IH]; intros vs self Hcar Hsc Hc Hr.
  - inversion Hcar; subst. simpl. unfold feed. simpl.
    destruct (Welford.count self); simpl; f_equal; lia.
  - inversion Hcar as [|kw' v kws' vs' Hkw Hcar']; subst.
    inversion Hsc as [|v' vs'' Hv Hsc']; subst.
    simpl length in Hr. rewrite Nat2Z.inj_succ in Hr.
    change (feed Welford.update self (kw :: kws))
      with (feed Welford.update (snd (Welford.update self kw)) kws).
    assert (Hstep : Welford.argname (snd (Welford.update self kw))
                    = Welford.argname self
                    /\ Welford.count (snd (Welford.update self kw))
                       = IntCell (cell_dtype (Welford.count self))
                                 (cell_val (Welford.count self) + 1)).
    { assert (Hone : Welford.batch_count v = 1)
        by (destruct v; simpl in *; done).
      destruct (welford_update_count self kw v Hkw) as [Hn Hcnt].
      { rewrite Hone. now apply py_int_ok_small. }
      split; [exact Hn|]. rewrite Hcnt, Hone.
      unfold int_add. f_equal. apply wrap_id.
      destruct (cell_dtype (Welford.count self)); unfold in_range in *; lia. }
    destruct Hstep as [Hname Hcount].
    rewrite (IH vs'); rewrite ?Hname, ?Hcount; cbn [cell_dtype cell_val];
      try done; try lia.
    + simpl length. f_equal. lia.
    + replace (cell_val (Welford.count self) + 1 + Z.of_nat (length vs'))
        with (cell_val (Welford.count self) + Z.succ (Z.of_nat (length vs')))
        by lia.
      exact Hr.
Qed.

Lemma welford_zeroed_init {F} `{Arith F} (argname : string) :
  welford_zeroed (Welford.init argname).
Proof. repeat split. Qed.

Lemma welford_zeroed_reset {F} `{Arith F} (self : Welford.t F) :
  welford_zeroed (snd (Welford.reset self)).
Proof. repeat split. Qed.

(** One finite observation, [2^67], leaves the reported standard deviation
    NaN, although the population standard deviation of a sequence of one
    observation is zero. *)
Lemma welford_overflow_counterexample :
  fst (Welford.compute
         (feed Welford.update (Welford.init (F := spec_float) "values")
            [ {[ "values"%string := PyFloat (B32.make 1 67) ]} ]))
  = Ok {| stat_mean := B32.make 1 67;
          standard_error_of_mean := B32.nan;
          standard_deviation := B32.nan |}
  /\ valid_binary B32.prec B32.emax (B32.make 1 67) = true
  /\ sqrt (variance_two_pass [IZR (2 ^ 67)]) = 0%R.
Proof.
  split; [vm_compute; reflexivity|]. split; [vm_compute; reflexivity|].
  unfold variance_two_pass, mean_two_pass, Rsum. simpl.
  replace (_ / 1)%R with 0%R; [apply sqrt_0|]. field.
Qed.

(** C2 (amended).  For a non-empty sequence of fewer than 2^31 scalar
    updates fed to a freshly constructed or reset Welford accumulator:
    in every arithmetic, the count is the length [n] of the sequence and
    [compute().standard_error_of_mean] is [standard_deviation] divided by
    [n ** 0.5]; and with the formulas evaluated in exact real arithmetic,
    [compute().mean] is the population mean and
    [compute().standard_deviation] the population standard deviation of
    the sequence as computed in two passes. *)
Theorem welford_matches_two_pass :
  (forall F (A : Arith F) (self : Welford.t F)
          (kws : list (kwargs F)) (vs : list (pyvalue F)),
      carries (Welford.argname self) kws vs ->
      Forall is_scalar vs ->
      cell_val (Welford.count self) = 0 ->
      in_range (cell_dtype (Welford.count self)) (Z.of_nat (length vs)) ->
      let final := feed Welford.update self kws in
      cell_val (Welford.count final) = Z.of_nat (length vs)
      /\ exists st, fst (Welford.compute final) = Ok st
         /\ standard_error_of_mean st
            = f_div (standard_deviation st)
                    (f_pow_half (f_of_int (Z.of_nat (length vs)))))
  /\ (forall (self : Welford.t R)
             (kws : list (kwargs R)) (vs : list (pyvalue R)),
      carries (Welford.argname self) kws vs ->
      Forall is_scalar vs ->
      welford_zeroed self ->
      vs <> [] ->
      Z.of_nat (length vs) <= 2147483647 ->
      let xs := concat (map observations vs) in
      fst (Welford.compute (feed Welford.update self kws))
      = Ok {| stat_mean := mean_two_pass xs;
              standard_error_of_mean :=
                (sqrt (variance_two_pass xs) / sqrt (INR (length xs)))%R;
              standard_deviation := sqrt (variance_two_pass xs) |}).
Proof.
  split.
  - intros F A self kws vs Hcar Hsc Hc0 Hr final. subst final.
    rewrite (welford_feed_count kws vs self Hcar Hsc) by (rewrite ?Hc0; simpl; done || lia).
    rewrite Hc0. cbn [cell_val]. split; [lia|].
    eexists. split; [reflexivity|].
    unfold Welford.compute.
    rewrite (welford_feed_count kws vs self Hcar Hsc) by (rewrite ?Hc0; simpl; done || lia).
    rewrite Hc0. reflexivity.
  - intros self kws vs Hcar Hsc (Hmean & Hm2 & Hc0) Hne Hlen xs.
    assert (Hr : in_range (cell_dtype (Welford.count self))
                   (cell_val (Welford.count self) + Z.of_nat (length vs))).
    { rewrite Hc0. destruct (cell_dtype (Welford.count self));
        unfold in_range; lia. }
    destruct (welford_feed_scalars kws vs self Hcar Hsc) as (_ & Hc & HS & HQ);
      [lia|exact Hr|].
    fold xs in HS, HQ.
    rewrite Hc0, Hmean, Hm2 in *. simpl f_zero in *.
    assert (Hk : (0 < INR (length vs))%R).
    { apply lt_0_INR. destruct vs; [done|simpl; lia]. }
    assert (Hxs : length xs = length vs)
      by (subst xs; now apply scalar_observations_length).
    set (final := feed Welford.update self kws) in *.
    assert (Hmu : Welford.mean final = mean_two_pass xs).
    { unfold mean_two_pass. rewrite Hxs.
      apply (Rmult_eq_reg_l (INR (length vs))); [|lra].
      replace (INR (length vs) * (Rsum xs / INR (length vs)))%R
        with (Rsum xs) by (field; lra).
      lra. }
    assert (Hvar : (Welford.m2 final / INR (length vs))%R
                   = variance_two_pass xs).
    { unfold variance_two_pass. rewrite Rsum_sq_dev, Hxs, <- Hmu.
      rewrite HQ. f_equal.
      replace (Rsum xs) with (INR (length vs) * Welford.mean final)%R by lra.
      lra. }
    unfold Welford.compute. cbn [fst]. rewrite Hc. cbn [cell_val].
    rewrite Z.add_0_l. simpl f_of_int. rewrite <- INR_IZR_INZ.
    simpl f_div. simpl f_pow_half. rewrite Hvar, Hmu, Hxs. reflexivity.
Qed.


(** ** Average in exact arithmetic *)

Lemma IZR_fold_left_add (l : list Z) (a : Z) :
  IZR (fold_left Z.add l a) = (IZR a + Rsum (map IZR l))%R.
Proof.
  revert a. induction l as [|z l IH]; intros a; simpl; [unfold Rsum; simpl; lra|].
  rewrite IH, plus_IZR. unfold Rsum. simpl. lra.
Qed.

Lemma sum_b2z_bound (l : list bool) (a : Z) :
  a <= fold_left Z.add (map Z.b2z l) a <= a + Z.of_nat (length l).
Proof.
  revert a. induction l as [|b l IH]; intros a; simpl; [lia|].
  specialize (IH (a + Z.b2z b)). destruct b; simpl in *; lia.
Qed.

Lemma asum_R (a : jarray R) :
  Z.of_nat (alength (adat a)) <= 2147483647 ->
  sum_fits (PyArr a) ->
  asum a = Rsum (as_floats (adat a)).
Proof.
  unfold asum, sum_fits. cbn [adat].
  destruct (adat a) as [l|l|l]; cbn [alength as_floats]; intros Hlen Hfit.
  - pose proof (sum_b2z_bound l 0).
    rewrite (wrap_id int32) by (unfold in_range; lia).
    cbn [f_of_int arith_R]. rewrite IZR_fold_left_add, map_map. lra.
  - rewrite (wrap_id int32) by done.
    cbn [f_of_int arith_R]. rewrite IZR_fold_left_add. lra.
  - apply a_sum_R.
Qed.

Lemma observations_length {F} `{Arith F} (v : pyvalue F) :
  Z.of_nat (length (observations v)) = Welford.batch_count v.
Proof. destruct v; simpl; try done. unfold asize. now rewrite as_floats_length. Qed.

Lemma average_feed_R (kws : list (kwargs R)) :
  forall (vs : list (pyvalue R)) (self : Average.t R),
  carries (Average.argname self) kws vs ->
  Forall sum_fits vs ->
  cell_dtype (Average.count self) = int32 ->
  0 <= cell_val (Average.count self) ->
  cell_val (Average.count self)
  + Z.of_nat (length (concat (map observations vs))) <= 2147483647 ->
  let xs := concat (map observations vs) in
  let final := feed Average.update self kws in
  Average.total final = (Average.total self + Rsum xs)%R
  /\ Average.count final
     = IntCell int32 (cell_val (Average.count self) + Z.of_nat (length xs)).
Proof.
  induction kws as [|kw kws IH]; intros vs self Hcar Hfit Hd Hc Hr.
  - inversion Hcar; subst. simpl. unfold feed, Rsum. simpl.
    split; [lra|]. destruct (Average.count self); simpl in *; subst. f_equal. lia.
  - inversion Hcar as [|kw' v kws' vs' Hkw Hcar']; subst.
    inversion Hfit as [|v' vs'' Hv Hfit']; subst.
    simpl map in *. simpl concat in *. rewrite length_app, Nat2Z.inj_add in Hr.
    pose proof (observations_length v) as Hsize.
    change (feed Average.update self (kw :: kws))
      with (feed Average.update (snd (Average.update self kw)) kws).
    assert (Hstep :
      Average.argname (snd (Average.update self kw)) = Average.argname self
      /\ Average.total (snd (Average.update self kw))
         = (Average.total self + Rsum (observations v))%R
      /\ Average.count (snd (Average.update self kw))
         = IntCell int32 (cell_val (Average.count self)
                          + Z.of_nat (length (observations v)))).
    { rewrite (average_update_accepted self kw v Hkw (accepted_R v)).
      cbn [snd Average.argname Average.total Average.count].
      split; [done|]. split.
      - simpl f_add. f_equal.
        destruct v as [z|x|a]; [unfold Rsum; simpl; lra..|].
        cbn [observations sum_of].
        rewrite asum_R; [done| |done].
        rewrite <- as_floats_length.
        change (as_floats (adat a)) with (observations (PyArr a)). lia.
      - unfold int_add. rewrite Hd. f_equal. rewrite <- Hsize.
        apply (wrap_id int32). unfold in_range. lia. }
    destruct Hstep as (Hname & Htotal & Hcount).
    destruct (IH vs' (snd (Average.update self kw))) as [IHt IHc];
      rewrite ?Hname, ?Hcount; cbn [cell_dtype cell_val]; try done; try lia.
    cbn zeta. rewrite IHt, IHc, Htotal, Hcount. cbn [cell_val].
    rewrite Rsum_app, length_app, Nat2Z.inj_add. split; [lra|f_equal; lia].
Qed.

Lemma average_zeroed_init {F} `{Arith F} (argname : string) :
  average_zeroed (Average.init argname).
Proof. split; reflexivity. Qed.

Lemma average_zeroed_reset {F} `{Arith F} (self : Average.t F) :
  average_zeroed (snd (Average.reset self)).
Proof. split; reflexivity. Qed.

(** Three integer observations, [2^30], [1] and [-2^30], have the mean 1/3;
    the float32 total absorbs the [1], and [compute()] returns [0.0]. *)
Lemma average_absorption_counterexample :
  fst (Average.compute
         (feed Average.update (Average.init (F := spec_float) "values")
            [ {[ "values"%string := PyInt 1073741824 ]};
              {[ "values"%string := PyInt 1 ]};
              {[ "values"%string := PyInt (-1073741824) ]} ]))
  = Ok B32.pzero
  /\ mean_two_pass [IZR 1073741824; IZR 1; IZR (-1073741824)] = (1 / 3)%R.
Proof.
  split; [vm_compute; reflexivity|].
  unfold mean_two_pass, Rsum. simpl. field.
Qed.

(** C3 (amended).  Whatever the arithmetic and the reductions of the
    library, an Average [update] carrying a float or a Python int the
    library converts adds the scalar to [total] and 1 to [count], one
    carrying an array whose size it converts adds the array's [sum()] to
    [total] and its size to [count] (the count in the wrapping arithmetic
    of its cell), and [compute()] returns [total / count].  With the
    division evaluated in exact real arithmetic, and for updates fed to a
    freshly constructed or reset accumulator that carry at least one and
    at most 2^31 - 1 elements in all (no int32 sum wrapping around),
    [compute()] is the arithmetic mean of all elements of all updates. *)
Theorem average_is_weighted_mean :
  (forall F (A : Arith F) (self : Average.t F) (kw : kwargs F)
          (v : pyvalue F),
      kw !! Average.argname self = Some v ->
      accepted v ->
      Average.update self kw
      = (Ok tt,
         {| Average.argname := Average.argname self;
            Average.total :=
              f_add (Average.total self)
                    match v with
                    | PyInt z => f_of_int z
                    | PyFloat x => x
                    | PyArr a => asum a
                    end;
            Average.count :=
              int_add (Average.count self)
                      (Z.of_nat (length (observations v))) |}))
  /\ (forall F (A : Arith F) (self : Average.t F),
      Average.compute self
      = (Ok (f_div (Average.total self)
                   (f_of_int (cell_val (Average.count self)))), self))
  /\ (forall (self : Average.t R)
             (kws : list (kwargs R)) (vs : list (pyvalue R)),
      average_zeroed self ->
      carries (Average.argname self) kws vs ->
      Forall sum_fits vs ->
      let xs := concat (map observations vs) in
      (1 <= length xs)%nat ->
      Z.of_nat (length xs) <= 2147483647 ->
      fst (Average.compute (feed Average.update self kws))
      = Ok (mean_two_pass xs)).
Proof.
  split; [|split].
  - intros F A self kw v Hkw Hv.
    rewrite (average_update_accepted self kw v Hkw Hv).
    now rewrite observations_length.
  - reflexivity.
  - intros self kws vs [Ht Hc] Hcar Hfit xs Hne Hlen.
    destruct (average_feed_R kws vs self Hcar Hfit) as [Htotal Hcount];
      rewrite ?Hc; cbn [cell_dtype cell_val]; try done; try lia.
    unfold Average.compute. cbn [fst]. fold xs in Htotal, Hcount.
    rewrite Htotal, Hcount, Ht, Hc. cbn [cell_val]. rewrite Z.add_0_l.
    simpl f_zero. simpl f_div. simpl f_of_int. rewrite <- INR_IZR_INZ.
    unfold mean_two_pass. f_equal. f_equal. lra.
Qed.


(** ** Welford: batched and sequential updates *)

Lemma observations_PyFloat {F} `{Arith F} (xs : list F) :
  concat (map observations (map PyFloat xs)) = xs.
Proof. induction xs as [|x xs IH]; simpl; [done|]. now rewrite IH. Qed.

Lemma Forall_is_scalar_PyFloat {F} (xs : list F) :
  Forall is_scalar (map PyFloat xs).
Proof. induction xs; simpl; constructor; simpl; auto. Qed.

(** One batched step in exact arithmetic, in the terms of the invariant
    of [welford_feed_scalars]. *)
Lemma welford_batch_step (self : Welford.t R) (kw : kwargs R) (a : jarray R) :
  kw !! Welford.argname self = Some (PyArr a) ->
  (1 <= alength (adat a))%nat ->
  0 <= cell_val (Welford.count self) ->
  in_range (cell_dtype (Welford.count self))
           (cell_val (Welford.count self) + asize a) ->
  let xs := as_floats (adat a) in
  let N := IZR (cell_val (Welford.count self)) in
  let k := INR (length xs) in
  let self' := snd (Welford.update self kw) in
  Welford.count self'
  = IntCell (cell_dtype (Welford.count self))
            (cell_val (Welford.count self) + asize a)
  /\ ((N + k) * Welford.mean self' = N * Welford.mean self + Rsum xs)%R
  /\ (Welford.m2 self'
      = Welford.m2 self + N * Welford.mean self * Welford.mean self
        + Rsumsq xs - (N + k) * Welford.mean self' * Welford.mean self')%R.
Proof.
  intros Hkw Hlen Hc Hr xs N k self'. subst self'.
  rewrite (welford_update_accepted self kw (PyArr a) Hkw (accepted_R _)).
  cbv zeta.
  cbn [snd Welford.count Welford.mean Welford.m2 Welford.batch_count
       mean_of Welford.batch_m2].
  unfold int_add. cbn [cell_dtype cell_val]. rewrite wrap_id by done.
  assert (HN : (0 <= N)%R) by (apply IZR_le; lia).
  assert (Hk : (1 <= k)%R).
  { subst k xs. rewrite as_floats_length. change 1%R with (INR 1).
    now apply le_INR. }
  assert (Hsize : IZR (asize a) = k).
  { subst k xs. unfold asize. rewrite as_floats_length. symmetry.
    apply INR_IZR_INZ. }
  assert (Hmean : amean a = (Rsum xs / k)%R).
  { unfold amean. now rewrite a_mean_R. }
  assert (Hvar : avar a
                 = ((Rsumsq xs - 2 * (Rsum xs / k) * Rsum xs
                     + k * (Rsum xs / k) * (Rsum xs / k)) / k)%R).
  { unfold avar. rewrite a_var_R. fold xs. fold k.
    now rewrite (Rsum_sq_dev (Rsum xs / k) xs). }
  rewrite Hmean, Hvar. cbn [f_div f_of_int f_mul f_sub f_add arith_R].
  rewrite plus_IZR, Hsize. fold N.
  split; [done|]. split; field; lra.
Qed.

(** An empty batch turns the running mean and [m2] of a Welford
    accumulator into NaN, where no single-element update at all leaves
    them as they were. *)
Lemma welford_empty_batch_counterexample :
  let self : Welford.t spec_float :=
    feed Welford.update (Welford.init "values")
      [ {[ "values"%string := PyInt 3 ]}; {[ "values"%string := PyInt 5 ]} ] in
  let empty : jarray spec_float := JArray [0%nat] (DFloat []) in
  let batched := Welford.update self {[ "values"%string := PyArr empty ]} in
  let sequential := feed Welford.update self [] in
  fst batched = Ok tt
  /\ Welford.mean (snd batched) = B32.nan
  /\ Welford.m2 (snd batched) = B32.nan
  /\ Welford.mean sequential = B32.of_int 4
  /\ Welford.m2 sequential = B32.of_int 2.
Proof. vm_compute. repeat split. Qed.

(** C4 (amended).  With the formulas evaluated in exact real arithmetic
    and the count staying within its cell, one batched Welford update of
    a non-empty array leaves the same [count], [mean] and [m2] as one
    single-element update per element, in order; and an update with a
    single observation [x] follows the classic recurrence
    [mean' = mean + (x - mean) / (count + 1)],
    [m2' = m2 + (x - mean) * (x - mean')]. *)
Theorem welford_batch_equals_sequential :
  (forall (self : Welford.t R) (kw : kwargs R) (a : jarray R)
          (kws : list (kwargs R)),
      kw !! Welford.argname self = Some (PyArr a) ->
      carries (Welford.argname self) kws (map PyFloat (as_floats (adat a))) ->
      (1 <= alength (adat a))%nat ->
      0 <= cell_val (Welford.count self) ->
      in_range (cell_dtype (Welford.count self))
               (cell_val (Welford.count self) + asize a) ->
      let batched := snd (Welford.update self kw) in
      let sequential := feed Welford.update self kws in
      Welford.count batched = Welford.count sequential
      /\ Welford.mean batched = Welford.mean sequential
      /\ Welford.m2 batched = Welford.m2 sequential)
  /\ (forall (self : Welford.t R) (kw : kwargs R) (v : pyvalue R) (x : R),
      kw !! Welford.argname self = Some v ->
      observations v = [x] ->
      0 <= cell_val (Welford.count self) ->
      in_range (cell_dtype (Welford.count self))
               (cell_val (Welford.count self) + 1) ->
      let self' := snd (Welford.update self kw) in
      Welford.mean self'
      = (Welford.mean self
         + (x - Welford.mean self)
           / (IZR (cell_val (Welford.count self)) + 1))%R
      /\ Welford.m2 self'
         = (Welford.m2 self
            + (x - Welford.mean self) * (x - Welford.mean self'))%R).
Proof.
  split.
  - intros self kw a kws Hkw Hcar Hlen Hc Hr batched sequential.
    subst batched sequential.
    destruct (welford_batch_step self kw a Hkw Hlen Hc Hr) as (Bc & Bm & B2).
    destruct (welford_feed_scalars kws _ self Hcar
                (Forall_is_scalar_PyFloat _) Hc) as (_ & Sc & Sm & S2).
    { rewrite length_map, as_floats_length. exact Hr. }
    rewrite observations_PyFloat in Sm, S2.
    rewrite length_map in Sc, Sm, S2.
    set (bat := snd (Welford.update self kw)) in *.
    set (sq := feed Welford.update self kws) in *.
    assert (HN : (0 <= IZR (cell_val (Welford.count self)))%R)
      by (apply IZR_le; lia).
    assert (Hk : (1 <= INR (length (as_floats (adat a))))%R).
    { rewrite as_floats_length. change 1%R with (INR 1). now apply le_INR. }
    assert (Hmean : Welford.mean bat = Welford.mean sq).
    { apply (Rmult_eq_reg_l
               (IZR (cell_val (Welford.count self))
                + INR (length (as_floats (adat a))))); lra. }
    split; [|split; [exact Hmean|]].
    + rewrite Bc, Sc. unfold asize. now rewrite as_floats_length.
    + rewrite B2, S2, Hmean. reflexivity.
  - intros self kw v x Hkw Hobs Hc Hr self'. subst self'.
    assert (HN : (0 <= IZR (cell_val (Welford.count self)))%R)
      by (apply IZR_le; lia).
    destruct v as [z|y|a].
    + destruct (welford_scalar_step self kw (PyInt z) x Hkw Hobs I Hc Hr)
        as (_ & _ & _ & Hm & H2).
      rewrite H2, Hm. split; [done|]. field. lra.
    + destruct (welford_scalar_step self kw (PyFloat y) x Hkw Hobs I Hc Hr)
        as (_ & _ & _ & Hm & H2).
      rewrite H2, Hm. split; [done|]. field. lra.
    + simpl in Hobs.
      assert (Hlen : alength (adat a) = 1%nat)
        by (rewrite <- as_floats_length, Hobs; reflexivity).
      destruct (welford_batch_step self kw a Hkw) as (_ & Bm & B2);
        [lia|done|unfold asize; rewrite Hlen; exact Hr|].
      rewrite Hobs in Bm, B2. unfold Rsumsq, Rsum in Bm, B2. simpl in Bm, B2.
      set (m' := Welford.mean (snd (Welford.update self kw))) in *.
      assert (Hm : m' = (Welford.mean self
                         + (x - Welford.mean self)
                           / (IZR (cell_val (Welford.count self)) + 1))%R).
      { apply (Rmult_eq_reg_l (IZR (cell_val (Welford.count self)) + 1));
          [|lra].
        rewrite Bm. field. lra. }
      split; [exact Hm|]. rewrite B2. rewrite Hm. field. lra.
Qed.


(** ** The statements at concrete inputs *)

Lemma welford_matches_two_pass_witness :
  let self : Welford.t R := Welford.init "values" in
  let vs : list (pyvalue R) := [PyInt 3; PyFloat 5%R] in
  let kws : list (kwargs R) :=
    [ {[ "values"%string := PyInt 3 ]}; {[ "values"%string := PyFloat 5%R ]} ] in
  carries (Welford.argname self) kws vs
  /\ Forall is_scalar vs
  /\ welford_zeroed self
  /\ vs <> []
  /\ Z.of_nat (length vs) <= 2147483647
  /\ fst (Welford.compute (feed Welford.update self kws))
     = Ok {| stat_mean := mean_two_pass [IZR 3; 5%R];
             standard_error_of_mean :=
               (sqrt (variance_two_pass [IZR 3; 5%R]) / sqrt (INR 2))%R;
             standard_deviation := sqrt (variance_two_pass [IZR 3; 5%R]) |}.
Proof.
  intros self vs kws.
  assert (Hcar : carries (Welford.argname self) kws vs)
    by (repeat constructor).
  assert (Hsc : Forall is_scalar vs) by (repeat constructor).
  assert (Hz : welford_zeroed self) by (repeat split).
  assert (Hne : vs <> []) by discriminate.
  assert (Hlen : Z.of_nat (length vs) <= 2147483647) by (simpl; lia).
  repeat (split; [assumption|]).
  exact (proj2 welford_matches_two_pass self kws vs Hcar Hsc Hz Hne Hlen).
Defined.

Lemma average_is_weighted_mean_witness :
  let self : Average.t R := Average.init "values" in
  let vs : list (pyvalue R) :=
    [PyArr (JArray [2%nat] (DInt [1; 2])); PyInt 3] in
  let kws : list (kwargs R) :=
    [ {[ "values"%string := PyArr (JArray [2%nat] (DInt [1; 2])) ]};
      {[ "values"%string := PyInt 3 ]} ] in
  average_zeroed self
  /\ carries (Average.argname self) kws vs
  /\ Forall sum_fits vs
  /\ fst (Average.compute (feed Average.update self kws))
     = Ok (mean_two_pass [IZR 1; IZR 2; IZR 3]).
Proof.
  intros self vs kws.
  assert (Hz : average_zeroed self) by (split; reflexivity).
  assert (Hcar : carries (Average.argname self) kws vs)
    by (repeat constructor).
  assert (Hfit : Forall sum_fits vs).
  { repeat constructor; simpl; lia. }
  repeat (split; [assumption|]).
  refine (proj2 (proj2 average_is_weighted_mean) self kws vs Hz Hcar Hfit _ _);
    simpl; lia.
Defined.

Lemma welford_batch_equals_sequential_witness :
  let self : Welford.t R :=
    {| Welford.argname := "values"; Welford.count := IntCell int32 2;
       Welford.mean := 4%R; Welford.m2 := 2%R |} in
  let a : jarray R := JArray [2%nat] (DFloat [7%R; 9%R]) in
  let kw : kwargs R := {[ "values"%string := PyArr a ]} in
  let kws : list (kwargs R) :=
    [ {[ "values"%string := PyFloat 7%R ]};
      {[ "values"%string := PyFloat 9%R ]} ] in
  kw !! Welford.argname self = Some (PyArr a)
  /\ carries (Welford.argname self) kws (map PyFloat (as_floats (adat a)))
  /\ Welford.mean (snd (Welford.update self kw))
     = Welford.mean (feed Welford.update self kws)
  /\ Welford.m2 (snd (Welford.update self kw))
     = Welford.m2 (feed Welford.update self kws).
Proof.
  intros self a kw kws.
  assert (Hkw : kw !! Welford.argname self = Some (PyArr a)) by reflexivity.
  assert (Hcar : carries (Welford.argname self) kws
                   (map PyFloat (as_floats (adat a))))
    by (repeat constructor).
  repeat (split; [assumption|]).
  refine (proj2 (proj1 welford_batch_equals_sequential self kw a kws
                   Hkw Hcar _ _ _)).
  - simpl. lia.
  - simpl. lia.
  - unfold in_range, asize. simpl. lia.
Defined.

Lemma accuracy_update_spec_witness :
  ex_updates !! "logits"%string = Some (PyArr ex_logits)
  /\ ex_updates !! "labels"%string = Some (PyArr ex_labels)
  /\ fst (Accuracy.compute
            (snd (Accuracy.update (Accuracy.init "values") ex_updates)))
     = Ok (SFdiv B32.prec B32.emax (B32.of_int 4) (B32.of_int 5)).
Proof.
  split; [reflexivity|]. split; [reflexivity|].
  refine (proj2 (proj1 (proj2 (proj2 accuracy_update_spec))
                   ex_updates 5%nat 2%nat _ _ eq_refl eq_refl _ _ _ _)).
  - reflexivity.
  - reflexivity.
  - lia.
  - simpl. lia.
Defined.


(** * Further properties of the code *)

(** ** What a failed update leaves behind *)

Lemma average_update_failure {F} `{Arith F}
    (self : Average.t F) (kw : kwargs F) (e : exn) :
  fst (Average.update self kw) = Raise e -> e <> OverflowError ->
  snd (Average.update self kw) = self.
Proof.
  destruct (kw !! Average.argname self) as [v|] eqn:Hkw.
  - destruct (average_update_cases self kw v Hkw) as [-> | [-> | ->]];
      cbn [fst snd]; congruence.
  - unfold Average.update. now rewrite Hkw.
Qed.

Lemma welford_update_failure {F} `{Arith F}
    (self : Welford.t F) (kw : kwargs F) (e : exn) :
  fst (Welford.update self kw) = Raise e -> e <> OverflowError ->
  snd (Welford.update self kw) = self.
Proof.
  destruct (kw !! Welford.argname self) as [v|] eqn:Hkw.
  - destruct (welford_update_cases self kw v Hkw) as [-> | [-> | ->]];
      cbn [fst snd]; congruence.
  - unfold Welford.update. now rewrite Hkw.
Qed.

Lemma accuracy_update_failure {F} `{Arith F}
    (self : Average.t F) (kw : kwargs F) (e : exn) :
  fst (Accuracy.update self kw) = Raise e -> e <> OverflowError ->
  snd (Accuracy.update self kw) = self.
Proof.
  unfold Accuracy.update.
  destruct (kw !! "logits"%string) as [[z|x|logits]|];
    destruct (kw !! "labels"%string) as [[z'|x'|labels]|];
    cbn [fst snd]; try done.
  destruct (negb (ndim logits =? ndim labels + 1)%nat
            || negb (is_int32 labels)); cbn [fst snd]; [done|].
  destruct (argmax_last logits) as [predicted|e1]; cbn [fst snd]; [|done].
  destruct (Accuracy.eq_labels predicted labels) as [hits|e2];
    cbn [fst snd]; [|done].
  apply average_update_failure.
Qed.

Lemma lift_failure {S T A B} (inj : S -> T) (f : A -> B)
    (o : outcome S A) (e : exn) :
  fst (lift inj f o) = Raise e -> fst o = Raise e.
Proof.
  destruct o as [[a|e'] s]; unfold lift; cbn [fst]; intros Hx;
    [discriminate Hx|now inversion Hx].
Qed.

(** X1. An [update] of an Average, a Welford or an Accuracy that raises
    one of the errors of its own checks -- a keyword is missing, [logits]
    or [labels] is not an array, the ranks or the label dtype are wrong,
    the class axis is empty, the shapes do not broadcast -- leaves the
    accumulator as it was.  An [OverflowError] comes later: a Python int
    the library refuses stops a Welford [update] after the count took the
    observation, [mean] and [m2] untouched, and stops an Average [update]
    before anything is written. *)
Theorem update_failure_writes {F} `{Arith F} :
  (forall (m : metric F) (kw : kwargs F) (e : exn),
      fst (m_update m kw) = Raise e -> e <> OverflowError ->
      snd (m_update m kw) = m)
  /\ (forall (self : Welford.t F) (kw : kwargs F) (z : Z),
      kw !! Welford.argname self = Some (PyInt z) ->
      py_int_ok z = false ->
      Welford.update self kw
      = (Raise OverflowError,
         {| Welford.argname := Welford.argname self;
            Welford.count := int_add (Welford.count self) 1;
            Welford.mean := Welford.mean self;
            Welford.m2 := Welford.m2 self |}))
  /\ (forall (self : Average.t F) (kw : kwargs F) (z : Z),
      kw !! Average.argname self = Some (PyInt z) ->
      py_int_ok z = false ->
      Average.update self kw = (Raise OverflowError, self)).
Proof.
  split; [|split].
  - intros m kw e Hr He.
    destruct m as [a|w|a]; cbn [m_update metric_Metric] in *;
      apply lift_failure in Hr; unfold lift; cbn [snd]; f_equal.
    + now apply (average_update_failure a kw e).
    + now apply (welford_update_failure w kw e).
    + now apply (accuracy_update_failure a kw e).
  - intros self kw z Hkw Hz. unfold Welford.update. rewrite Hkw.
    cbn [Welford.batch_count Welford.batch_mean].
    rewrite int_iadd_accepts by now apply py_int_ok_small.
    unfold float_of_py_int, py_int. now rewrite Hz.
  - intros self kw z Hkw Hz. unfold Average.update. rewrite Hkw.
    cbn [Average.addend]. unfold float_of_py_int, py_int. now rewrite Hz.
Qed.

Lemma update_failure_writes_witness :
  let m : metric spec_float := MAccuracy (snd (Accuracy.update
            (Accuracy.init "values") ex_updates)) in
  let kw : kwargs spec_float :=
    <["labels"%string := PyArr ex_logits]> ex_updates in
  let w : Welford.t spec_float :=
    {| Welford.argname := "values"; Welford.count := IntCell int32 2;
       Welford.mean := B32.of_int 4; Welford.m2 := B32.of_int 2 |} in
  let big : kwargs spec_float := {[ "values"%string := PyInt 2147483648 ]} in
  (fst (m_update m kw) = Raise ValueError /\ snd (m_update m kw) = m)
  /\ Welford.update w big
     = (Raise OverflowError,
        {| Welford.argname := "values"; Welford.count := IntCell int32 3;
           Welford.mean := B32.of_int 4; Welford.m2 := B32.of_int 2 |}).
Proof.
  intros m kw w big.
  destruct (update_failure_writes (F := spec_float)) as (Hcheck & Hw & _).
  assert (Hr : fst (m_update m kw) = Raise ValueError)
    by (vm_compute; reflexivity).
  split; [split; [exact Hr|]|].
  - apply (Hcheck m kw ValueError Hr). discriminate.
  - exact (Hw w big 2147483648 eq_refl eq_refl).
Defined.

(** ** NaN stays until reset *)

Lemma SFsub_nan_r x : SFsub B32.prec B32.emax x B32.nan = B32.nan.
Proof. destruct x; reflexivity. Qed.

Lemma SFadd_nan_r x : SFadd B32.prec B32.emax x B32.nan = B32.nan.
Proof. destruct x; reflexivity. Qed.

Lemma SFadd_nan_l x : SFadd B32.prec B32.emax B32.nan x = B32.nan.
Proof. destruct x; reflexivity. Qed.

Lemma SFmul_nan_l x : SFmul B32.prec B32.emax B32.nan x = B32.nan.
Proof. destruct x; reflexivity. Qed.

Lemma SFdiv_nan_l x : SFdiv B32.prec B32.emax B32.nan x = B32.nan.
Proof. destruct x; reflexivity. Qed.

Section NaN.
Context {F : Type} `{Arith F} (nan : F).
Hypothesis add_nan_l : forall x, f_add nan x = nan.
Hypothesis add_nan_r : forall x, f_add x nan = nan.
Hypothesis sub_nan_r : forall x, f_sub x nan = nan.
Hypothesis mul_nan_l : forall x, f_mul nan x = nan.
Hypothesis div_nan_l : forall x, f_div nan x = nan.

(** X2. In an arithmetic where an addition, subtraction, multiplication
    or division with a NaN operand gives NaN, as in float32, a NaN in the
    state survives every update: an Average whose [total] is NaN keeps a
    NaN [total]; a Welford whose [mean] is NaN keeps a NaN [mean], and its
    [m2] is NaN after every update that returns normally; one whose [m2]
    is NaN keeps it.  Only [reset] brings the zeros back. *)
Theorem nan_is_sticky :
  (forall (self : Average.t F) (kw : kwargs F),
      Average.total self = nan ->
      Average.total (snd (Average.update self kw)) = nan)
  /\ (forall (self : Welford.t F) (kw : kwargs F),
      Welford.mean self = nan ->
      Welford.mean (snd (Welford.update self kw)) = nan
      /\ (fst (Welford.update self kw) = Ok tt ->
          Welford.m2 (snd (Welford.update self kw)) = nan))
  /\ (forall (self : Welford.t F) (kw : kwargs F),
      Welford.m2 self = nan ->
      Welford.m2 (snd (Welford.update self kw)) = nan)
  /\ (forall self : Average.t F,
      Average.total (snd (Average.reset self)) = f_zero)
  /\ (forall self : Welford.t F,
      Welford.mean (snd (Welford.reset self)) = f_zero
      /\ Welford.m2 (snd (Welford.reset self)) = f_zero).
Proof.
  split; [|split; [|split; [|split]]].
  - intros self kw Hnan.
    destruct (kw !! Average.argname self) as [v|] eqn:Hkw;
      [|unfold Average.update; now rewrite Hkw].
    destruct (average_update_cases self kw v Hkw) as [-> | [-> | ->]];
      cbn [snd Average.total]; rewrite ?Hnan; auto.
  - intros self kw Hnan.
    destruct (kw !! Welford.argname self) as [v|] eqn:Hkw;
      [|unfold Welford.update; rewrite Hkw; split; [done|discriminate]].
    destruct (welford_update_cases self kw v Hkw) as [-> | [-> | ->]];
      cbn [fst snd Welford.mean Welford.m2];
      [|split; [done|discriminate]..].
    rewrite Hnan, sub_nan_r, add_nan_l. split; [done|]. intros _.
    now rewrite !mul_nan_l, div_nan_l, !add_nan_r.
  - intros self kw Hnan.
    destruct (kw !! Welford.argname self) as [v|] eqn:Hkw;
      [|unfold Welford.update; now rewrite Hkw].
    destruct (welford_update_cases self kw v Hkw) as [-> | [-> | ->]];
      cbn [snd Welford.m2]; rewrite ?Hnan; auto.
  - reflexivity.
  - intros self. split; reflexivity.
Qed.
End NaN.

Lemma nan_is_sticky_witness :
  let poisoned : Welford.t spec_float :=
    snd (Welford.update (Welford.init "values")
           {[ "values"%string := PyArr (JArray [0%nat] (DFloat [])) ]}) in
  let kw : kwargs spec_float := {[ "values"%string := PyInt 3 ]} in
  Welford.mean poisoned = B32.nan
  /\ fst (Welford.update poisoned kw) = Ok tt
  /\ Welford.mean (snd (Welford.update poisoned kw)) = B32.nan
  /\ Welford.m2 (snd (Welford.update poisoned kw)) = B32.nan.
Proof.
  intros poisoned kw.
  assert (Hnan : Welford.mean poisoned = B32.nan) by reflexivity.
  assert (Hok : fst (Welford.update poisoned kw) = Ok tt) by reflexivity.
  destruct (nan_is_sticky (H := arith_b32) B32.nan
              SFadd_nan_l SFadd_nan_r SFsub_nan_r SFmul_nan_l SFdiv_nan_l)
    as (_ & HW & _).
  destruct (HW poisoned kw Hnan) as [Hm H2].
  split; [exact Hnan|]. split; [exact Hok|]. split; [exact Hm|exact (H2 Hok)].
Defined.

(** ** MultiMetric: failure, composition, names, keys *)

Section CompositeMore.
Context {F M Out : Type} `{Metric F M Out}.










End CompositeMore.




(** ** MultiMetric over the accumulators of the module *)

Section Provenance.
Context {F M Out : Type} `{Metric F M Out}.



End Provenance.



Lemma welford_update_argname {F} `{Arith F}
    (self : Welford.t F) (kw : kwargs F) :
  Welford.argname (snd (Welford.update self kw)) = Welford.argname self.
Proof.
  unfold Welford.update.
  destruct (kw !! Welford.argname self) as [v|]; [|done].
  destruct (int_iadd _ _) as [c|e]; [|done].
  now destruct (Welford.batch_mean v).
Qed.






(** ** Welford: reset against construction *)

Lemma fed_count_nonneg {F} `{Arith F} (argname : string)
    (kws : list (kwargs F)) :
  0 <= fed_count argname kws.
Proof.
  induction kws as [|kw kws IH]; simpl; [lia|].
  destruct (kw !! argname) as [v|]; [|exact IH].
  pose proof (batch_count_nonneg v). lia.
Qed.

Lemma in_range_small d z : 0 <= z <= 2147483647 -> in_range d z.
Proof. destruct d; unfold in_range; lia. Qed.

(** Two Welford states that differ in the dtype of the count only go
    through the same means and squared deviations, as long as the count
    fits both cells. *)
Lemma welford_update_sim {F} `{Arith F} (s1 s2 : Welford.t F) (kw : kwargs F) :
  Welford.argname s1 = Welford.argname s2 ->
  Welford.mean s1 = Welford.mean s2 ->
  Welford.m2 s1 = Welford.m2 s2 ->
  cell_val (Welford.count s1) = cell_val (Welford.count s2) ->
  0 <= cell_val (Welford.count s1) ->
  cell_val (Welford.count s1) + fed_count (Welford.argname s1) [kw]
  <= 2147483647 ->
  let a := snd (Welford.update s1 kw) in
  let b := snd (Welford.update s2 kw) in
  Welford.argname a = Welford.argname s1
  /\ Welford.argname b = Welford.argname s1
  /\ Welford.mean a = Welford.mean b
  /\ Welford.m2 a = Welford.m2 b
  /\ cell_val (Welford.count a)
     = cell_val (Welford.count s1) + fed_count (Welford.argname s1) [kw]
  /\ cell_val (Welford.count b)
     = cell_val (Welford.count s1) + fed_count (Welford.argname s1) [kw].
Proof.
  intros Hn Hm H2 Hc H0 Hr a b. subst a b.
  simpl fed_count in *.
  destruct (kw !! Welford.argname s1) as [v|] eqn:Hkw.
  - pose proof (batch_count_nonneg v) as Hv.
    assert (Hacc : py_int_ok (Welford.batch_count v) = true)
      by (apply py_int_ok_small; lia).
    assert (Hkw2 : kw !! Welford.argname s2 = Some v) by now rewrite <- Hn.
    unfold Welford.update. rewrite Hkw, Hkw2.
    rewrite !int_iadd_accepts by done.
    destruct (Welford.batch_mean v) as [bm|e]; cbn [snd];
      cbn [Welford.argname Welford.mean Welford.m2 Welford.count
           int_add cell_val];
      rewrite <- ?Hc, <- ?Hm, <- ?H2;
      rewrite !wrap_id by (apply in_range_small; lia);
      repeat split; try done; lia.
  - unfold Welford.update. rewrite <- Hn, Hkw. cbn [snd].
    repeat split; try done; lia.
Qed.

Lemma welford_feed_sim {F} `{Arith F} (kws : list (kwargs F)) :
  forall s1 s2 : Welford.t F,
    Welford.argname s1 = Welford.argname s2 ->
    Welford.mean s1 = Welford.mean s2 ->
    Welford.m2 s1 = Welford.m2 s2 ->
    cell_val (Welford.count s1) = cell_val (Welford.count s2) ->
    0 <= cell_val (Welford.count s1) ->
    cell_val (Welford.count s1) + fed_count (Welford.argname s1) kws
    <= 2147483647 ->
    let a := feed Welford.update s1 kws in
    let b := feed Welford.update s2 kws in
    Welford.mean a = Welford.mean b
    /\ Welford.m2 a = Welford.m2 b
    /\ cell_val (Welford.count a)
       = cell_val (Welford.count s1) + fed_count (Welford.argname s1) kws
    /\ cell_val (Welford.count b)
       = cell_val (Welford.count s1) + fed_count (Welford.argname s1) kws.
Proof.
  induction kws as [|kw kws IH]; intros s1 s2 Hn Hm H2 Hc H0 Hr.
  - simpl. unfold feed. simpl. repeat split; try done; lia.
  - change (feed Welford.update s1 (kw :: kws))
      with (feed Welford.update (snd (Welford.update s1 kw)) kws).
    change (feed Welford.update s2 (kw :: kws))
      with (feed Welford.update (snd (Welford.update s2 kw)) kws).
    pose proof (fed_count_nonneg (Welford.argname s1) kws) as Hrest.
    assert (Hsplit : fed_count (Welford.argname s1) (kw :: kws)
                     = fed_count (Welford.argname s1) [kw]
                       + fed_count (Welford.argname s1) kws).
    { simpl. destruct (kw !! Welford.argname s1); lia. }
    pose proof (fed_count_nonneg (Welford.argname s1) [kw]) as Hone.
    destruct (welford_update_sim s1 s2 kw Hn Hm H2 Hc H0)
      as (Sa & Sb & Sm & S2 & Sca & Scb); [lia|].
    destruct (IH (snd (Welford.update s1 kw)) (snd (Welford.update s2 kw)))
      as (I1 & I2 & I3 & I4); rewrite ?Sa, ?Sb, ?Sca, ?Scb; try done; try lia.
    rewrite Sa, Sca in I3, I4.
    repeat split; try done; lia.
Qed.

(** X8. A Welford accumulator that was reset behaves like a freshly
    constructed one, although [reset] makes the count a uint32 where
    [__init__] makes it an int32: after the same update calls, feeding at
    most 2^31 - 1 observations, both hold the same [mean] and [m2], both
    counts are the number of observations fed (calls without the keyword
    feed none), and [compute()] returns the same statistics.  In every
    arithmetic of the cells. *)
Theorem welford_reset_like_fresh {F} `{Arith F}
    (self : Welford.t F) (kws : list (kwargs F)) :
  fed_count (Welford.argname self) kws <= 2147483647 ->
  let a := feed Welford.update (snd (Welford.reset self)) kws in
  let b := feed Welford.update (Welford.init (Welford.argname self)) kws in
  cell_dtype (Welford.count (snd (Welford.reset self))) = uint32
  /\ cell_dtype (Welford.count (Welford.init (F := F) (Welford.argname self)))
     = int32
  /\ Welford.mean a = Welford.mean b
  /\ Welford.m2 a = Welford.m2 b
  /\ cell_val (Welford.count a) = fed_count (Welford.argname self) kws
  /\ cell_val (Welford.count b) = fed_count (Welford.argname self) kws
  /\ fst (Welford.compute a) = fst (Welford.compute b).
Proof.
  intros Hfed a b. subst a b.
  split; [reflexivity|]. split; [reflexivity|].
  pose proof (welford_feed_sim kws (snd (Welford.reset self))
                (Welford.init (Welford.argname self))
                eq_refl eq_refl eq_refl eq_refl) as Hsim.
  destruct Hsim as (Hm & H2 & Hca & Hcb); [simpl; lia|simpl; lia|].
  set (a := feed Welford.update (snd (Welford.reset self)) kws) in *.
  set (b := feed Welford.update (Welford.init (Welford.argname self)) kws) in *.
  cbn [Welford.reset snd Welford.argname Welford.count cell_val] in Hca, Hcb.
  rewrite Z.add_0_l in Hca, Hcb. clearbody a b.
  split; [exact Hm|]. split; [exact H2|]. split; [exact Hca|].
  split; [exact Hcb|].
  unfold Welford.compute. cbn [fst]. now rewrite Hm, H2, Hca, Hcb.
Qed.

Lemma welford_reset_like_fresh_witness :
  let self : Welford.t spec_float :=
    snd (Welford.update (Welford.init "values")
           {[ "values"%string := PyFloat (B32.make 1 67) ]}) in
  let kws : list (kwargs spec_float) :=
    [ {[ "values"%string := PyArr (JArray [2%nat] (DInt [7; 9])) ]};
      {[ "labels"%string := PyInt 1 ]};
      {[ "values"%string := PyInt 2 ]} ] in
  fed_count (Welford.argname self) kws <= 2147483647
  /\ fst (Welford.compute (feed Welford.update (snd (Welford.reset self)) kws))
     = fst (Welford.compute
              (feed Welford.update (Welford.init "values") kws))
  /\ cell_val (Welford.count
                 (feed Welford.update (snd (Welford.reset self)) kws)) = 3.
Proof.
  intros self kws.
  assert (Hfed : fed_count (Welford.argname self) kws <= 2147483647)
    by (vm_compute; discriminate).
  destruct (welford_reset_like_fresh self kws Hfed)
    as (_ & _ & _ & _ & Hc & _ & Hcomp).
  split; [exact Hfed|]. split; [exact Hcomp|exact Hc].
Defined.

(** ** Welford over scalars and batches *)

Lemma Rsumsq_app (l1 l2 : list R) :
  Rsumsq (l1 ++ l2) = (Rsumsq l1 + Rsumsq l2)%R.
Proof. unfold Rsumsq. now rewrite map_app, Rsum_app. Qed.

(** One update with a value that carries at least one observation, in
    exact arithmetic. *)
Lemma welford_value_step (self : Welford.t R) (kw : kwargs R) (v : pyvalue R) :
  kw !! Welford.argname self = Some v ->
  nonempty_value v ->
  0 <= cell_val (Welford.count self) ->
  in_range (cell_dtype (Welford.count self))
           (cell_val (Welford.count self)
            + Z.of_nat (length (observations v))) ->
  let xs := observations v in
  let N := IZR (cell_val (Welford.count self)) in
  let k := INR (length xs) in
  let self' := snd (Welford.update self kw) in
  Welford.argname self' = Welford.argname self
  /\ Welford.count self'
     = IntCell (cell_dtype (Welford.count self))
               (cell_val (Welford.count self) + Z.of_nat (length xs))
  /\ ((N + k) * Welford.mean self' = N * Welford.mean self + Rsum xs)%R
  /\ (Welford.m2 self'
      = Welford.m2 self + N * Welford.mean self * Welford.mean self
        + Rsumsq xs - (N + k) * Welford.mean self' * Welford.mean self')%R.
Proof.
  intros Hkw Hne Hc Hr xs N k self'. subst xs k self'.
  assert (HN : (0 <= N)%R) by (apply IZR_le; lia).
  assert (Hname : Welford.argname (snd (Welford.update self kw))
                  = Welford.argname self)
    by apply welford_update_argname.
  split; [exact Hname|].
  destruct v as [z|x|a].
  - destruct (welford_scalar_step self kw (PyInt z) (IZR z) Hkw eq_refl I Hc Hr)
      as (_ & _ & Hcount & Hm & H2).
    split; [exact Hcount|]. rewrite H2, Hm. fold N.
    unfold Rsumsq, Rsum. simpl. split; field; lra.
  - destruct (welford_scalar_step self kw (PyFloat x) x Hkw eq_refl I Hc Hr)
      as (_ & _ & Hcount & Hm & H2).
    split; [exact Hcount|]. rewrite H2, Hm. fold N.
    unfold Rsumsq, Rsum. simpl. split; field; lra.
  - simpl in Hne. cbn [observations] in *.
    rewrite as_floats_length in Hr.
    destruct (welford_batch_step self kw a Hkw Hne Hc Hr) as (Bc & Bm & B2).
    rewrite as_floats_length at 1. split; [exact Bc|]. split; [exact Bm|exact B2].
Qed.

Lemma welford_feed_values (kws : list (kwargs R)) :
  forall (vs : list (pyvalue R)) (self : Welford.t R),
  carries (Welford.argname self) kws vs ->
  Forall nonempty_value vs ->
  0 <= cell_val (Welford.count self) ->
  in_range (cell_dtype (Welford.count self))
           (cell_val (Welford.count self)
            + Z.of_nat (length (concat (map observations vs)))) ->
  let xs := concat (map observations vs) in
  let N := IZR (cell_val (Welford.count self)) in
  let k := INR (length xs) in
  let final := feed Welford.update self kws in
  Welford.count final
  = IntCell (cell_dtype (Welford.count self))
            (cell_val (Welford.count self) + Z.of_nat (length xs))
  /\ ((N + k) * Welford.mean final = N * Welford.mean self + Rsum xs)%R
  /\ (Welford.m2 final
      = Welford.m2 self + N * Welford.mean self * Welford.mean self
        + Rsumsq xs - (N + k) * Welford.mean final * Welford.mean final)%R.
Proof.
  induction kws as [|kw kws IH]; intros vs self Hcar Hne Hc Hr.
  - inversion Hcar; subst. simpl. unfold feed, Rsumsq, Rsum. simpl.
    split; [destruct (Welford.count self); simpl; f_equal; lia|].
    split; lra.
  - inversion Hcar as [|kw' v kws' vs' Hkw Hcar']; subst.
    inversion Hne as [|v' vs'' Hv Hne']; subst.
    simpl map in *. simpl concat in *.
    rewrite length_app, Nat2Z.inj_add in Hr.
    assert (Hr1 : in_range (cell_dtype (Welford.count self))
                    (cell_val (Welford.count self)
                     + Z.of_nat (length (observations v)))).
    { destruct (cell_dtype (Welford.count self)); unfold in_range in *; lia. }
    destruct (welford_value_step self kw v Hkw Hv Hc Hr1)
      as (Hname & Hcount & Hm & H2).
    set (self1 := snd (Welford.update self kw)) in *.
    change (feed Welford.update self (kw :: kws))
      with (feed Welford.update self1 kws).
    specialize (IH vs' self1).
    rewrite Hname, Hcount in IH. cbn [cell_dtype cell_val] in IH.
    destruct IH as (IHc & IHm & IH2); [done|done|lia| |].
    { replace (cell_val (Welford.count self)
               + Z.of_nat (length (observations v))
               + Z.of_nat (length (concat (map observations vs'))))
        with (cell_val (Welford.count self)
              + (Z.of_nat (length (observations v))
                 + Z.of_nat (length (concat (map observations vs')))))
        by lia.
      exact Hr. }
    cbn zeta. rewrite length_app, plus_INR, Rsum_app, Rsumsq_app.
    rewrite plus_IZR, <- INR_IZR_INZ in IHm, IH2.
    set (N := IZR (cell_val (Welford.count self))) in *.
    set (kv := INR (length (observations v))) in *.
    set (K := INR (length (concat (map observations vs')))) in *.
    set (mf := Welford.mean (feed Welford.update self1 kws)) in *.
    set (m1 := Welford.mean self1) in *.
    split; [rewrite IHc, Nat2Z.inj_add; f_equal; lia|].
    split.
    + replace ((N + (kv + K)) * mf)%R with ((N + kv + K) * mf)%R by ring.
      rewrite IHm, Hm. ring.
    + rewrite IH2, H2.
      replace ((N + (kv + K)) * mf * mf)%R with ((N + kv + K) * mf * mf)%R
        by ring.
      ring.
Qed.

(** X9. With the formulas evaluated in exact real arithmetic, a Welford
    accumulator fed any mix of scalars and non-empty arrays, from
    construction or reset and with at most 2^31 - 1 observations in all,
    reports in [compute()] the two-pass population mean and population
    standard deviation of all observations taken together, and their
    quotient by the square root of their number as standard error: how
    the observations were cut into update calls does not matter. *)
Theorem welford_batches_match_two_pass
    (self : Welford.t R) (kws : list (kwargs R)) (vs : list (pyvalue R)) :
  carries (Welford.argname self) kws vs ->
  Forall nonempty_value vs ->
  welford_zeroed self ->
  vs <> [] ->
  Z.of_nat (length (concat (map observations vs))) <= 2147483647 ->
  let xs := concat (map observations vs) in
  fst (Welford.compute (feed Welford.update self kws))
  = Ok {| stat_mean := mean_two_pass xs;
          standard_error_of_mean :=
            (sqrt (variance_two_pass xs) / sqrt (INR (length xs)))%R;
          standard_deviation := sqrt (variance_two_pass xs) |}.
Proof.
  intros Hcar Hne (Hmean & Hm2 & Hc0) Hnil Hlen xs.
  assert (Hr : in_range (cell_dtype (Welford.count self))
                 (cell_val (Welford.count self) + Z.of_nat (length xs))).
  { rewrite Hc0. apply in_range_small. subst xs. lia. }
  destruct (welford_feed_values kws vs self Hcar Hne) as (Hc & HS & HQ);
    [lia|exact Hr|].
  fold xs in Hc, HS, HQ.
  rewrite Hc0, Hmean, Hm2 in *. simpl f_zero in *.
  assert (Hk : (0 < INR (length xs))%R).
  { apply lt_0_INR. subst xs. destruct vs as [|v vs]; [done|].
    inversion Hne as [|v' vs' Hv _]; subst. simpl. rewrite length_app.
    assert (1 <= length (observations v))%nat; [|lia].
    destruct v as [z|x|a]; simpl in *; try lia.
    now rewrite as_floats_length. }
  set (final := feed Welford.update self kws) in *.
  assert (Hmu : Welford.mean final = mean_two_pass xs).
  { unfold mean_two_pass.
    apply (Rmult_eq_reg_l (INR (length xs))); [|lra].
    replace (INR (length xs) * (Rsum xs / INR (length xs)))%R
      with (Rsum xs) by (field; lra).
    lra. }
  assert (Hvar : (Welford.m2 final / INR (length xs))%R
                 = variance_two_pass xs).
  { unfold variance_two_pass. rewrite Rsum_sq_dev, <- Hmu.
    rewrite HQ. f_equal.
    replace (Rsum xs) with (INR (length xs) * Welford.mean final)%R by lra.
    lra. }
  unfold Welford.compute. cbn [fst]. rewrite Hc. cbn [cell_val].
  rewrite Z.add_0_l. simpl f_of_int. rewrite <- INR_IZR_INZ.
  simpl f_div. simpl f_pow_half. rewrite Hvar, Hmu. reflexivity.
Qed.

Lemma welford_batches_match_two_pass_witness :
  let self : Welford.t R := Welford.init "values" in
  let vs : list (pyvalue R) :=
    [PyArr (JArray [2%nat] (DInt [1; 2])); PyFloat 5%R;
     PyArr (JArray [1%nat] (DBool [true]))] in
  let kws : list (kwargs R) :=
    [ {[ "values"%string := PyArr (JArray [2%nat] (DInt [1; 2])) ]};
      {[ "values"%string := PyFloat 5%R ]};
      {[ "values"%string := PyArr (JArray [1%nat] (DBool [true])) ]} ] in
  carries (Welford.argname self) kws vs
  /\ Forall nonempty_value vs
  /\ fst (Welford.compute (feed Welford.update self kws))
     = Ok {| stat_mean := mean_two_pass [IZR 1; IZR 2; 5%R; IZR 1];
             standard_error_of_mean :=
               (sqrt (variance_two_pass [IZR 1; IZR 2; 5%R; IZR 1])
                / sqrt (INR 4))%R;
             standard_deviation :=
               sqrt (variance_two_pass [IZR 1; IZR 2; 5%R; IZR 1]) |}.
Proof.
  intros self vs kws.
  assert (Hcar : carries (Welford.argname self) kws vs)
    by (repeat constructor).
  assert (Hne : Forall nonempty_value vs)
    by (repeat constructor; simpl; lia).
  split; [exact Hcar|]. split; [exact Hne|].
  refine (welford_batches_match_two_pass self kws vs Hcar Hne _ _ _).
  - repeat split.
  - discriminate.
  - simpl. lia.
Defined.


(** ** Accuracy over several batches *)

(** One update of an Accuracy listening to [values], in any state. *)
Lemma accuracy_update_step {F} `{Arith F}
    (self : Average.t F) (kw : kwargs F) (b : scored_batch F) :
  Average.argname self = "values"%string ->
  cell_dtype (Average.count self) = int32 ->
  0 <= cell_val (Average.count self) ->
  cell_val (Average.count self) + Z.of_nat (sb_batch b) <= 2147483647 ->
  carries_batch kw b ->
  Accuracy.update self kw
  = (Ok tt,
     {| Average.argname := "values";
        Average.total := f_add (Average.total self) (f_of_int (batch_hits b));
        Average.count :=
          IntCell int32 (cell_val (Average.count self)
                         + Z.of_nat (sb_batch b)) |}).
Proof.
  intros Hname Hd Hc Hr (Hlogits & Hlabels & Hlabs & Hclasses).
  now apply accuracy_update_rows.
Qed.

Lemma total_rows_nonneg {F} (bs : list (scored_batch F)) : 0 <= total_rows bs.
Proof. induction bs as [|b bs IH]; simpl; lia. Qed.

Lemma accuracy_feed {F} `{Arith F} (kws : list (kwargs F)) :
  forall (bs : list (scored_batch F)) (self : Average.t F),
    Forall2 carries_batch kws bs ->
    Average.argname self = "values"%string ->
    cell_dtype (Average.count self) = int32 ->
    0 <= cell_val (Average.count self) ->
    cell_val (Average.count self) + total_rows bs <= 2147483647 ->
    feed Accuracy.update self kws
    = {| Average.argname := "values";
         Average.total :=
           fold_left f_add (map (fun b => f_of_int (batch_hits b)) bs)
                     (Average.total self);
         Average.count :=
           IntCell int32 (cell_val (Average.count self) + total_rows bs) |}.
Proof.
  induction kws as [|kw kws IH]; intros bs self Hcar Hname Hd Hc Hr.
  - inversion Hcar; subst. unfold feed. simpl. rewrite Z.add_0_r.
    destruct self as [n t [d c]]. simpl in *. now subst.
  - inversion Hcar as [|kw' b kws' bs' Hb Hcar']; subst.
    simpl total_rows in *.
    pose proof (total_rows_nonneg bs') as Hrest.
    change (feed Accuracy.update self (kw :: kws))
      with (feed Accuracy.update (snd (Accuracy.update self kw)) kws).
    rewrite (accuracy_update_step self kw b) by (try done; lia).
    cbn [snd]. rewrite (IH bs'); cbn [Average.argname Average.total
      Average.count cell_dtype cell_val]; try done; try lia.
    simpl map. simpl fold_left. f_equal. f_equal. lia.
Qed.

Lemma fold_left_Rplus_IZR (zs : list Z) (a : Z) :
  fold_left Rplus (map IZR zs) (IZR a) = IZR (fold_right Z.add 0 zs + a).
Proof.
  revert a. induction zs as [|z zs IH]; intros a; simpl; [done|].
  rewrite <- plus_IZR, IH. f_equal. lia.
Qed.

(** X10. Accuracy accumulates over batches.  After a fresh [Accuracy()]
    was updated with a run of batches -- [logits] of shape (batch,
    classes), int32 [labels] of shape (batch,), at most 2^31 - 1 rows in
    all -- [count] is the number of rows of all batches and [total] the
    sum, in the arithmetic of the cell, of the matching rows of each
    batch; in exact arithmetic, [compute()] is the number of matching
    rows of all batches divided by the number of all rows. *)
Theorem accuracy_accumulates :
  (forall F (A : Arith F) (kws : list (kwargs F))
          (bs : list (scored_batch F)),
      Forall2 carries_batch kws bs ->
      total_rows bs <= 2147483647 ->
      feed Accuracy.update (Accuracy.init "values") kws
      = {| Average.argname := "values";
           Average.total :=
             fold_left f_add (map (fun b => f_of_int (batch_hits b)) bs)
                       f_zero;
           Average.count := IntCell int32 (total_rows bs) |})
  /\ (forall (kws : list (kwargs R)) (bs : list (scored_batch R)),
      Forall2 carries_batch kws bs ->
      total_rows bs <= 2147483647 ->
      fst (Accuracy.compute
             (feed Accuracy.update (Accuracy.init "values") kws))
      = Ok (IZR (total_hits bs) / IZR (total_rows bs))%R).
Proof.
  assert (Hgen : forall F (A : Arith F) (kws : list (kwargs F))
                        (bs : list (scored_batch F)),
      Forall2 carries_batch kws bs ->
      total_rows bs <= 2147483647 ->
      feed Accuracy.update (Accuracy.init "values") kws
      = {| Average.argname := "values";
           Average.total :=
             fold_left f_add (map (fun b => f_of_int (batch_hits b)) bs)
                       f_zero;
           Average.count := IntCell int32 (total_rows bs) |}).
  { intros F A kws bs Hcar Hr.
    rewrite (accuracy_feed kws bs); try done; simpl; lia. }
  split; [exact Hgen|].
  intros kws bs Hcar Hr. rewrite (Hgen R arith_R kws bs Hcar Hr).
  unfold Accuracy.compute, Average.compute.
  cbn [fst Average.total Average.count cell_val f_div f_of_int f_zero
       f_add arith_R].
  do 2 f_equal.
  rewrite <- (map_map batch_hits IZR).
  rewrite (fold_left_Rplus_IZR (map batch_hits bs) 0). f_equal.
  rewrite Z.add_0_r. unfold total_hits. clear.
  induction bs as [|b bs' IHb]; simpl; [done|]. now rewrite IHb.
Qed.

Lemma accuracy_accumulates_witness :
  let b1 : scored_batch spec_float :=
    ScoredBatch 5 2 (DInt [2; 1;  1; 2;  2; 1;  1; 2;  2; 1])
                [1; 1; 0; 1; 0] in
  let b2 : scored_batch spec_float :=
    ScoredBatch 2 3 (DInt [1; 5; 2;  7; 0; 0]) [1; 1] in
  let kws : list (kwargs spec_float) :=
    [ ex_updates;
      <["logits"%string := PyArr (JArray [2; 3]%nat
                                    (DInt [1; 5; 2;  7; 0; 0]))]>
        {[ "labels"%string := PyArr (JArray [2]%nat (DInt [1; 1])) ]} ] in
  Forall2 carries_batch kws [b1; b2]
  /\ total_rows [b1; b2] <= 2147483647
  /\ feed Accuracy.update (Accuracy.init "values") kws
     = {| Average.argname := "values";
          Average.total := B32.of_int 5;
          Average.count := IntCell int32 7 |}.
Proof.
  intros b1 b2 kws.
  assert (Hcar : Forall2 carries_batch kws [b1; b2]).
  { repeat constructor; simpl; lia. }
  assert (Hr : total_rows [b1; b2] <= 2147483647) by (vm_compute; discriminate).
  split; [exact Hcar|]. split; [exact Hr|].
  rewrite (proj1 accuracy_accumulates spec_float arith_b32 kws [b1; b2]
             Hcar Hr).
  vm_compute. reflexivity.
Defined.

(** ** An Accuracy constructed with another keyword *)

Lemma feed_stuck {F S} (update : S -> kwargs F -> outcome S unit) (self : S) :
  (forall kw, snd (update self kw) = self) ->
  forall kws, feed update self kws = self.
Proof.
  intros Hstuck kws. unfold feed.
  induction kws as [|kw kws IH]; simpl; [done|]. now rewrite Hstuck.
Qed.

(** X11. [Accuracy.update] hands the comparison over to Average's
    [update] under the fixed name [values].  An Accuracy constructed with
    any other [argname] therefore rejects every update, whatever it is
    given, and its state never moves: after any run of update calls a fresh
    one is still the fresh one, and in binary32 its [compute()] is still
    NaN. *)
Theorem accuracy_other_argname_never_updates {F} `{Arith F}
    (self : Average.t F) :
  Average.argname self <> "values"%string ->
  (forall kw : kwargs F,
      exists e, Accuracy.update self kw = (Raise e, self))
  /\ (forall kws : list (kwargs F), feed Accuracy.update self kws = self).
Proof.
  intros Hne.
  assert (Hstep : forall kw : kwargs F,
             exists e, Accuracy.update self kw = (Raise e, self)).
  { intros kw. unfold Accuracy.update.
    destruct (kw !! "logits"%string) as [[z|x|logits]|];
      destruct (kw !! "labels"%string) as [[z'|x'|labels]|]; eauto.
    destruct (negb (ndim logits =? ndim labels + 1)%nat
              || negb (is_int32 labels)); eauto.
    destruct (argmax_last logits) as [predicted|e1]; eauto.
    destruct (Accuracy.eq_labels predicted labels) as [hits|e2]; eauto.
    rewrite accuracy_other_keyword by done. eauto. }
  split; [exact Hstep|].
  apply feed_stuck. intros kw. destruct (Hstep kw) as [e He].
  now rewrite He.
Qed.

Lemma accuracy_other_argname_never_updates_witness :
  let self : Average.t spec_float := Accuracy.init "hits" in
  Average.argname self <> "values"%string
  /\ Accuracy.update self ex_updates = (Raise TypeError, self)
  /\ fst (Accuracy.compute (feed Accuracy.update self [ex_updates; ex_updates]))
     = Ok B32.nan.
Proof.
  intros self.
  assert (Hne : Average.argname self <> "values"%string) by discriminate.
  split; [exact Hne|]. split; [vm_compute; reflexivity|].
  rewrite (proj2 (accuracy_other_argname_never_updates self Hne)
             [ex_updates; ex_updates]).
  reflexivity.
Defined.


(** ** The count is a 32-bit cell *)

(** X13. [count] is a 32-bit integer array and [+=] wraps around.  An
    Average whose int32 count would pass 2^31 - 1 with the observations of
    an update it accepts is left with a negative count, 2^32 below the
    number of observations fed; so is a Welford, which takes the
    observations into its count whatever becomes of the update; a Welford
    that was reset, whose count is a uint32, goes on to 2^32 - 1 instead
    and starts again from 0 there. *)
Theorem count_wraps_around {F} `{Arith F} (kw : kwargs F) (v : pyvalue F) :
  Welford.batch_count v <= 2147483647 ->
  (forall self : Average.t F,
      kw !! Average.argname self = Some v ->
      accepted v ->
      cell_dtype (Average.count self) = int32 ->
      cell_val (Average.count self) <= 2147483647 ->
      2147483647 < cell_val (Average.count self) + Welford.batch_count v ->
      let c' := cell_val (Average.count (snd (Average.update self kw))) in
      fst (Average.update self kw) = Ok tt
      /\ c' = cell_val (Average.count self) + Welford.batch_count v - 4294967296
      /\ c' < 0)
  /\ (forall self : Welford.t F,
      kw !! Welford.argname self = Some v ->
      cell_dtype (Welford.count self) = int32 ->
      cell_val (Welford.count self) <= 2147483647 ->
      2147483647 < cell_val (Welford.count self) + Welford.batch_count v ->
      let c' := cell_val (Welford.count (snd (Welford.update self kw))) in
      c' = cell_val (Welford.count self) + Welford.batch_count v - 4294967296
      /\ c' < 0)
  /\ (forall self : Welford.t F,
      kw !! Welford.argname self = Some v ->
      cell_dtype (Welford.count self) = uint32 ->
      0 <= cell_val (Welford.count self) <= 4294967295 ->
      (cell_val (Welford.count self) + Welford.batch_count v <= 4294967295 ->
       cell_val (Welford.count (snd (Welford.update self kw)))
       = cell_val (Welford.count self) + Welford.batch_count v)
      /\ (4294967295 < cell_val (Welford.count self) + Welford.batch_count v ->
          cell_val (Welford.count (snd (Welford.update self kw)))
          = cell_val (Welford.count self) + Welford.batch_count v
            - 4294967296)).
Proof.
  intros Hn. pose proof (batch_count_nonneg v) as Hn0.
  assert (Hacc : py_int_ok (Welford.batch_count v) = true)
    by (apply py_int_ok_small; lia).
  split; [|split].
  - intros self Hkw Hv Hd Hc Hover c'. subst c'.
    rewrite (average_update_accepted self kw v Hkw Hv).
    cbn [fst snd Average.count]. split; [done|].
    unfold int_add. rewrite Hd. cbn [cell_val wrap].
    set (s := cell_val (Average.count self) + Welford.batch_count v) in *.
    replace (s + 2147483648) with (s - 2147483648 + 1 * 4294967296) by lia.
    rewrite Z.mod_add by lia. rewrite Z.mod_small by lia. lia.
  - intros self Hkw Hd Hc Hover c'. subst c'.
    destruct (welford_update_count self kw v Hkw Hacc) as [_ ->].
    unfold int_add. rewrite Hd. cbn [cell_val wrap].
    set (s := cell_val (Welford.count self) + Welford.batch_count v) in *.
    replace (s + 2147483648) with (s - 2147483648 + 1 * 4294967296) by lia.
    rewrite Z.mod_add by lia. rewrite Z.mod_small by lia. lia.
  - intros self Hkw Hd Hc.
    destruct (welford_update_count self kw v Hkw Hacc) as [_ ->].
    unfold int_add. rewrite Hd. cbn [cell_val wrap].
    set (s := cell_val (Welford.count self) + Welford.batch_count v) in *.
    split; intros Hs.
    + apply Z.mod_small. lia.
    + replace s with (s - 4294967296 + 1 * 4294967296) at 1 by lia.
      rewrite Z.mod_add by lia. apply Z.mod_small. lia.
Qed.

Lemma count_wraps_around_witness :
  let self : Average.t spec_float :=
    {| Average.argname := "values";
       Average.total := B32.make 1 31;
       Average.count := IntCell int32 2147483647 |} in
  let kw : kwargs spec_float := {[ "values"%string := PyInt 1 ]} in
  Welford.batch_count (F := spec_float) (PyInt 1) <= 2147483647
  /\ accepted (F := spec_float) (PyInt 1)
  /\ cell_val (Average.count (snd (Average.update self kw))) < 0
  /\ Average.update self kw
     = (Ok tt, {| Average.argname := "values";
                  Average.total := B32.make 1 31;
                  Average.count := IntCell int32 (-2147483648) |})
  /\ fst (Average.compute (snd (Average.update self kw)))
     = Ok (SFopp (B32.of_int 1)).
Proof.
  intros self kw.
  assert (Hn : Welford.batch_count (F := spec_float) (PyInt 1) <= 2147483647)
    by (vm_compute; discriminate).
  assert (Hv : accepted (F := spec_float) (PyInt 1)) by reflexivity.
  split; [exact Hn|]. split; [exact Hv|].
  split; [|split; vm_compute; reflexivity].
  refine (proj2 (proj2 (proj1 (count_wraps_around kw (PyInt 1) Hn)
                          self eq_refl Hv eq_refl _ _))).
  - vm_compute; discriminate.
  - vm_compute; reflexivity.
Defined.

(** ** [reset] and [__init__] *)

(** X14. [Average.reset], which Accuracy inherits, leaves exactly the
    state [__init__] builds for the same [argname]; [Welford.reset] never
    does, since it makes [count] a uint32 where [__init__] makes it an
    int32.  For each of the three, a second [reset] changes nothing. *)
Theorem reset_versus_init {F} `{Arith F} :
  (forall self : Average.t F,
      Average.reset self = (Ok tt, Average.init (Average.argname self)))
  /\ (forall self : Accuracy.t,
      Accuracy.reset self = (Ok tt, Accuracy.init (Average.argname self)))
  /\ (forall (self : Welford.t F) (argname : string),
      snd (Welford.reset self) <> Welford.init argname)
  /\ (forall self : Welford.t F,
      Welford.mean (snd (Welford.reset self))
      = Welford.mean (Welford.init (F := F) (Welford.argname self))
      /\ Welford.m2 (snd (Welford.reset self))
         = Welford.m2 (Welford.init (F := F) (Welford.argname self))
      /\ cell_val (Welford.count (snd (Welford.reset self)))
         = cell_val (Welford.count
                       (Welford.init (F := F) (Welford.argname self))))
  /\ (forall m : metric F, m_reset (snd (m_reset m)) = m_reset m).
Proof.
  split; [reflexivity|]. split; [reflexivity|].
  split; [intros self argname; discriminate|].
  split; [intros self; repeat split|].
  intros [a|w|a]; reflexivity.
Qed.

(** ** A metric under the name of a method *)

Section Shadowing.
Context {F M Out : Type} `{Metric F M Out}.




End Shadowing.


